(** * bdaddr.py: programming the device address of a Bluetooth controller

    A shallow embedding of [src/bdaddr.py].  The Python module drives a
    [bumble] [Device]: it reads the cached company identifier, builds the
    vendor-specific HCI command for that vendor and sends it, and for CSR
    controllers sends a raw packet and waits on an [asyncio] future.

    The mutable objects of the program (the device and its host, the event
    loop's futures, the transport) are gathered in one record, [World], and
    every coroutine is a function [World -> Outcome A * World]. *)

From Stdlib Require Import ZArith Ascii Strings.Byte.
From stdpp Require Import base option list strings gmap.

Local Open Scope Z_scope.

(** ** Python values *)

(** Exceptions the program raises or lets through. *)
Inductive Exn :=
| BDAddrException (message : string)
| HCI_StatusError (status : Z)
| IndexError
| ValueError
| struct_error
| InvalidStateError
| KeyboardInterrupt.

#[global] Instance Exn_eq_dec : EqDecision Exn.
Proof. solve_decision. Defined.

(** The integer held by one element of a [bytes] object. *)
Definition int_of_byte (b : byte) : Z := Z.of_N (Byte.to_N b).

(** [bytearray.fromhex]: two hexadecimal digits per byte, [ValueError]
    (here [None]) on anything else. *)
Definition hex_digit (c : ascii) : option N :=
  let n := N_of_ascii c in
  if ((48 <=? n) && (n <=? 57))%N then Some (n - 48)%N
  else if ((97 <=? n) && (n <=? 102))%N then Some (n - 87)%N
  else if ((65 <=? n) && (n <=? 70))%N then Some (n - 55)%N
  else None.

Fixpoint fromhex (s : string) : option (list byte) :=
  match s with
  | EmptyString => Some []
  | String hi (String lo rest) =>
      match hex_digit hi, hex_digit lo, fromhex rest with
      | Some h, Some l, Some bs =>
          match Byte.of_N (16 * h + l) with
          | Some b => Some (b :: bs)
          | None => None
          end
      | _, _, _ => None
      end
  | String _ EmptyString => None
  end.

(** ** The bumble objects the module touches *)

(** [bumble.hci.Address]: the raw bytes ([bytes(address)]) and the type tag. *)
Record Address := { address_bytes : list byte; address_type : Z }.

Definition PUBLIC_DEVICE_ADDRESS : Z := 0x00.
Definition RANDOM_DEVICE_ADDRESS : Z := 0x01.

(** [device.host.local_version], of which only the company identifier is read. *)
Record LocalVersion := { company_identifier : Z }.

(** An HCI event as the host hands it to [on_hci_event]. *)
Record HCI_Event := { event_code : Z; parameters : list byte }.

(** An [HCI_Command] object.  [name] is what the [_hci_command] decorator
    stores in [cls.name]; it never reaches the wire. *)
Record HCI_Command := {
  name : string;
  op_code : Z;
  command_parameters : list byte
}.

(** [bumble.hci.hci_command_op_code]: the opcode group field in the upper
    six bits, the command field in the lower ten. *)
Definition hci_command_op_code (ogf ocf : Z) : Z := Z.lor (Z.shiftl ogf 10) ocf.

(** The two halves of an op-code, read back. *)
Definition op_code_group (op : Z) : Z := Z.shiftr op 10.
Definition op_code_command (op : Z) : Z := Z.land op 0x3FF.

Definition HCI_SUCCESS : Z := 0x00.
Definition HCI_COMMAND_PACKET : byte := x01.

(** [bytes(command)]: [struct.pack('<BHB', HCI_COMMAND_PACKET, op_code,
    len(parameters)) + parameters].  [struct.pack] refuses an op-code that
    does not fit 16 bits and a length that does not fit 8. *)
Definition to_bytes (command : HCI_Command) : option (list byte) :=
  let op := op_code command in
  let n := Z.of_nat (length (command_parameters command)) in
  if (0 <=? op) && (op <? 65536) && (n <? 256) then
    match Byte.of_N (Z.to_N (op mod 256)), Byte.of_N (Z.to_N (op / 256)),
          Byte.of_N (Z.to_N n) with
    | Some lo, Some hi, Some len =>
        Some (HCI_COMMAND_PACKET :: lo :: hi :: len :: command_parameters command)
    | _, _, _ => None
    end
  else None.

(** An [asyncio] future. *)
Inductive Future :=
| PENDING
| FINISHED_result
| FINISHED_exception (e : Exn).

(** What can sit in [device.host.on_hci_event]: a handler that was there
    before this module ran (told apart by a number), or the closure
    [on_hci_event] that [_csr_get_response] defines, which captures its
    future and the handler it replaced. *)
Inductive Handler :=
| host_handler (ident : nat)
| on_hci_event (future : nat) (origin_on_hci_event : Handler).

#[global] Instance Handler_eq_dec : EqDecision Handler.
Proof. solve_decision. Defined.

(** How a command left the host. *)
Inductive SendKind := via_send_command | via_send_hci_packet.

(** ** The world *)

Record World := {
  (** [device.host.local_version] *)
  local_version : option LocalVersion;
  (** [device.host.on_hci_event] *)
  host_on_hci_event : Handler;
  (** every assignment to [device.host.on_hci_event], oldest first *)
  assignments : list Handler;
  (** the futures of the event loop, by creation order *)
  futures : list Future;
  (** the commands handed to the transport, oldest first *)
  sent : list (SendKind * HCI_Command);
  (** the status the controller answers to a command packet *)
  controller : list byte -> Z;
  (** the events the controller emits while a coroutine is suspended *)
  inbox : list HCI_Event;
  (** the events that reached a pre-existing handler, oldest first *)
  handled : list (nat * HCI_Event);
  (** an exception about to be raised asynchronously inside the next
      [try] body (a [KeyboardInterrupt], say), if any *)
  interrupt : option Exn
}.

Definition with_handler (h : Handler) (w : World) : World :=
  {| local_version := local_version w; host_on_hci_event := h;
     assignments := assignments w ++ [h]; futures := futures w;
     sent := sent w; controller := controller w; inbox := inbox w;
     handled := handled w; interrupt := interrupt w |}.

Definition with_futures (fs : list Future) (w : World) : World :=
  {| local_version := local_version w; host_on_hci_event := host_on_hci_event w;
     assignments := assignments w; futures := fs;
     sent := sent w; controller := controller w; inbox := inbox w;
     handled := handled w; interrupt := interrupt w |}.

Definition with_sent (s : list (SendKind * HCI_Command)) (w : World) : World :=
  {| local_version := local_version w; host_on_hci_event := host_on_hci_event w;
     assignments := assignments w; futures := futures w;
     sent := s; controller := controller w; inbox := inbox w;
     handled := handled w; interrupt := interrupt w |}.

Definition with_inbox (i : list HCI_Event) (w : World) : World :=
  {| local_version := local_version w; host_on_hci_event := host_on_hci_event w;
     assignments := assignments w; futures := futures w;
     sent := sent w; controller := controller w; inbox := i;
     handled := handled w; interrupt := interrupt w |}.

Definition with_handled (h : list (nat * HCI_Event)) (w : World) : World :=
  {| local_version := local_version w; host_on_hci_event := host_on_hci_event w;
     assignments := assignments w; futures := futures w;
     sent := sent w; controller := controller w; inbox := inbox w;
     handled := h; interrupt := interrupt w |}.

Definition with_interrupt (i : option Exn) (w : World) : World :=
  {| local_version := local_version w; host_on_hci_event := host_on_hci_event w;
     assignments := assignments w; futures := futures w;
     sent := sent w; controller := controller w; inbox := inbox w;
     handled := handled w; interrupt := i |}.

(** ** Coroutines *)

(** A coroutine returns, raises, or is still suspended on a future when the
    controller has nothing more to say. *)
Inductive Outcome (A : Type) :=
| Return (a : A)
| Raise (e : Exn)
| Suspended.
Arguments Return {A} a.
Arguments Raise {A} e.
Arguments Suspended {A}.

Definition M (A : Type) : Type := World -> Outcome A * World.

#[global] Instance M_ret : MRet M := fun A a w => (Return a, w).

#[global] Instance M_bind : MBind M := fun A B f m w =>
  match m w with
  | (Return a, w') => f a w'
  | (Raise e, w') => (Raise e, w')
  | (Suspended, w') => (Suspended, w')
  end.

Definition raise {A} (e : Exn) : M A := fun w => (Raise e, w).

Definition of_option {A} (o : option A) (e : Exn) : M A :=
  match o with Some a => mret a | None => raise e end.

(** [l[i]] and [l[i] = v] on a [bytes] or [bytearray]. *)
Definition getitem (l : list byte) (i : nat) : M byte :=
  of_option (l !! i) IndexError.

Definition setitem (l : list byte) (i : nat) (v : byte) : M (list byte) :=
  if decide (i < length l)%nat then mret (<[i:=v]> l) else raise IndexError.

(** ** The host and the event loop *)

Definition get_local_version : M (option LocalVersion) :=
  fun w => (Return (local_version w), w).

(** Reading and assigning [device.host.on_hci_event]. *)
Definition get_on_hci_event : M Handler :=
  fun w => (Return (host_on_hci_event w), w).

Definition set_on_hci_event (h : Handler) : M unit :=
  fun w => (Return tt, with_handler h w).

(** [device.host.send_hci_packet(command)]: the bytes go to the transport
    and nothing is awaited. *)
Definition send_hci_packet (command : HCI_Command) : M unit :=
  fun w =>
    match to_bytes command with
    | Some _ => (Return tt, with_sent (sent w ++ [(via_send_hci_packet, command)]) w)
    | None => (Raise struct_error, w)
    end.

(** [await device.host.send_command(command, check_result)]: the command is
    sent, the controller's status comes back, and with [check_result] a
    status other than [HCI_SUCCESS] is raised as [HCI_StatusError]. *)
Definition send_command (command : HCI_Command) (check_result : bool) : M Z :=
  fun w =>
    match to_bytes command with
    | Some packet =>
        let w' := with_sent (sent w ++ [(via_send_command, command)]) w in
        let status := controller w packet in
        if check_result && negb (status =? HCI_SUCCESS)
        then (Raise (HCI_StatusError status), w')
        else (Return status, w')
    | None => (Raise struct_error, w)
    end.

(** [asyncio.get_event_loop().create_future()] *)
Definition create_future : M nat :=
  fun w => (Return (length (futures w)), with_futures (futures w ++ [PENDING]) w).

(** [future.set_result] and [future.set_exception]: only a pending future
    can be resolved. *)
Definition resolve (future : nat) (v : Future) : M unit :=
  fun w =>
    match futures w !! future with
    | Some PENDING => (Return tt, with_futures (<[future:=v]> (futures w)) w)
    | _ => (Raise InvalidStateError, w)
    end.

Definition set_result (future : nat) : M unit := resolve future FINISHED_result.

Definition set_exception (future : nat) (e : Exn) : M unit :=
  resolve future (FINISHED_exception e).

(** Calling a handler on an event.  The second case is the body of the
    closure [on_hci_event] of [_csr_get_response]; in
    [res[9] + res[10] << 8 == 0] Python adds first, then shifts, then
    compares. *)
Fixpoint call (h : Handler) (event : HCI_Event) : M unit :=
  match h with
  | host_handler ident =>
      fun w => (Return tt, with_handled (handled w ++ [(ident, event)]) w)
  | on_hci_event future origin_on_hci_event =>
      if event_code event =? 0xFF then
        let res := parameters event in
        res0 ← getitem res 0;
        if int_of_byte res0 =? 0xC2 then
          res9 ← getitem res 9;
          res10 ← getitem res 10;
          if Z.shiftl (int_of_byte res9 + int_of_byte res10) 8 =? 0
          then set_result future
          else set_exception future (BDAddrException "Write BDAddr (CSR) failed")
        else set_exception future (BDAddrException "Write BDAddr (CSR) failed")
      else call origin_on_hci_event event
  end.

(** The host receives an event and calls whatever handler is installed at
    that moment; an exception that escapes the handler stays with the
    host's reader and does not reach a waiting coroutine. *)
Definition deliver (event : HCI_Event) (w : World) : World :=
  snd (call (host_on_hci_event w) event w).

(** [await future]: the coroutine resumes once the future is resolved; until
    then the controller's events are delivered one by one. *)
Fixpoint await_loop (future : nat) (events : list HCI_Event) (w : World)
  : Outcome unit * World :=
  match futures w !! future with
  | Some FINISHED_result => (Return tt, with_inbox events w)
  | Some (FINISHED_exception e) => (Raise e, with_inbox events w)
  | _ =>
      match events with
      | [] => (Suspended, with_inbox [] w)
      | event :: rest => await_loop future rest (deliver event w)
      end
  end.

Definition await (future : nat) : M unit :=
  fun w => await_loop future (inbox w) w.

(** The place inside a [try] body where a pending asynchronous exception
    is raised. *)
Definition checkpoint : M unit :=
  fun w =>
    match interrupt w with
    | Some e => (Raise e, with_interrupt None w)
    | None => (Return tt, w)
    end.

(** [try: body / except: handler / finally: final], with a bare [except]. *)
Definition try_except_finally (body handler final : M unit) : M unit :=
  fun w =>
    let r := match body w with
             | (Raise _, w') => handler w'
             | r => r
             end in
    match final (snd r) with
    | (Return _, w') => (fst r, w')
    | (Raise e, w') => (Raise e, w')
    | (Suspended, w') => (Suspended, w')
    end.

(** ** The command classes (lines 176-238) *)

(** An [("address", Address.parse_address)] field: [bytes(address)]. *)
Definition address_field (address : Address) : list byte := address_bytes address.

(** A byte-string field of declared width [n]: cut or padded with zeros. *)
Definition fixed_field (n : nat) (data : list byte) : list byte :=
  take n data ++ replicate (n - length data) x00.

Definition _Ericsson_Write_BDAddr_Command (address : Address) : HCI_Command :=
  {| name := "ERICSSON_WRITE_BDADDR_COMMAND";
     op_code := hci_command_op_code 0x3F 0x000D;
     command_parameters := address_field address |}.

Definition _Ericsson_Store_In_Flash_Command (user_id length_ : byte) (data : list byte)
  : HCI_Command :=
  {| name := "ERICSSON_STORE_IN_FLASH_COMMAND";
     op_code := hci_command_op_code 0x3F 0x0022;
     command_parameters := [user_id] ++ [length_] ++ fixed_field 253 data |}.

Definition _CSR_Write_BDAddr_Command (payload : list byte) : HCI_Command :=
  {| name := "CSR_WRITE_BDADDR_COMMAND";
     op_code := hci_command_op_code 0x3F 0x0000;
     command_parameters := payload |}.

Definition _TI_Write_BDAddr_Command (address : Address) : HCI_Command :=
  {| name := "TI_WRITE_BDADDR_COMMAND";
     op_code := hci_command_op_code 0x3F 0x0006;
     command_parameters := address_field address |}.

Definition _BCM_Write_BDAddr_Command (address : Address) : HCI_Command :=
  {| name := "BCM_WRITE_BDADDR_COMMAND";
     op_code := hci_command_op_code 0x3F 0x0001;
     command_parameters := address_field address |}.

Definition _Intel_Write_BDAddr_Command (address : Address) : HCI_Command :=
  {| name := "INTEL_WRITE_BDADDR_COMMAND";
     op_code := hci_command_op_code 0x3F 0x0031;
     command_parameters := address_field address |}.

Definition _CYS_Write_BDAddr_Command (address : Address) : HCI_Command :=
  {| name := "CYS_WRITE_BDADDR_COMMAND";
     op_code := hci_command_op_code 0x3F 0x0001;
     command_parameters := address_field address |}.

Definition _Zeevo_Write_BDAddr_Command (address : Address) : HCI_Command :=
  {| name := "ZEEVO_WRITE_BDADDR_COMMAND";
     op_code := hci_command_op_code 0x3F 0x0001;
     command_parameters := address_field address |}.

(** [bumble.hci.HCI_Reset_Command()]: the standard reset, no parameters. *)
Definition HCI_Reset_Command : HCI_Command :=
  {| name := "HCI_RESET_COMMAND";
     op_code := hci_command_op_code 0x03 0x0003;
     command_parameters := [] |}.

(** ** The vendor paths (lines 82-173) *)

Definition _ericsson_bdaddr (address : Address) : M unit :=
  send_command (_Ericsson_Write_BDAddr_Command address) true;; mret tt.

Definition _intel_bdaddr (address : Address) : M unit :=
  send_command (_Intel_Write_BDAddr_Command address) true;; mret tt.

Definition _csr_get_response : M unit :=
  future ← create_future;
  origin_on_hci_event ← get_on_hci_event;
  try_except_finally
    (checkpoint;;
     set_on_hci_event (on_hci_event future origin_on_hci_event))
    (set_exception future (BDAddrException "Some error occurred"))
    (set_on_hci_event origin_on_hci_event);;
  await future.

Definition _csr_bdaddr (address : Address) (transient : bool) : M unit :=
  payload ← of_option
    (fromhex "02000c001147037000000100040000000000000000000000") ValueError;
  payload ← (if transient then setitem payload 14 x08 else mret payload);
  let address_bytes := address_bytes address in
  b ← getitem address_bytes 2; payload ← setitem payload 16 b;
  payload ← setitem payload 17 x00;
  b ← getitem address_bytes 0; payload ← setitem payload 18 b;
  b ← getitem address_bytes 1; payload ← setitem payload 19 b;
  b ← getitem address_bytes 3; payload ← setitem payload 20 b;
  payload ← setitem payload 21 x00;
  b ← getitem address_bytes 4; payload ← setitem payload 22 b;
  b ← getitem address_bytes 5; payload ← setitem payload 23 b;
  let payload := [xc2] ++ payload in
  send_hci_packet (_CSR_Write_BDAddr_Command payload);;
  _csr_get_response.

Definition _csr_reset (transient : bool) : M unit :=
  payload ← of_option (fromhex "020009000000014000000000000000000000") ValueError;
  payload ← (if transient then setitem payload 6 x02 else mret payload);
  let payload := [xc2] ++ payload in
  send_hci_packet (_CSR_Write_BDAddr_Command payload);;
  _csr_get_response.

Definition _ti_bdaddr (address : Address) : M unit :=
  send_command (_TI_Write_BDAddr_Command address) true;; mret tt.

Definition _bcm_bdaddr (address : Address) : M unit :=
  send_command (_BCM_Write_BDAddr_Command address) true;; mret tt.

Definition _zeevo_bdaddr (address : Address) : M unit :=
  send_command (_Zeevo_Write_BDAddr_Command address) true;; mret tt.

Definition _st_bdaddr (address : Address) : M unit :=
  send_command
    (_Ericsson_Store_In_Flash_Command xfe x06 (address_bytes address)) true;;
  mret tt.

Definition _cys_bdaddr (address : Address) : M unit :=
  send_command (_CYS_Write_BDAddr_Command address) true;; mret tt.

(** ** The dispatcher (lines 11-61) *)

(** A [match] on integer literals compares with [==], case after case. *)
Definition bdaddr (address : Address) (reset : bool) : M unit :=
  if negb (address_type address =? PUBLIC_DEVICE_ADDRESS)
  then raise (BDAddrException "address should be PUBLIC_DEVICE_ADDRESS")
  else
    local_version ← get_local_version;
    match local_version with
    | None => raise (BDAddrException "No available local_version")
    | Some local_version =>
        let company_identifier := company_identifier local_version in
        (if company_identifier =? 0 then _ericsson_bdaddr address
         else if company_identifier =? 2 then _intel_bdaddr address
         else if company_identifier =? 10 then _csr_bdaddr address false
         else if company_identifier =? 13 then _ti_bdaddr address
         else if company_identifier =? 15 then _bcm_bdaddr address
         else if company_identifier =? 18 then _zeevo_bdaddr address
         else if company_identifier =? 48 then _st_bdaddr address
         else if company_identifier =? 57 then _ericsson_bdaddr address
         else if company_identifier =? 305 then _cys_bdaddr address
         else raise (BDAddrException "Unsupported manufacturer"));;
        if reset then
          if company_identifier =? 0 then mret tt
          else if company_identifier =? 2 then mret tt
          else if company_identifier =? 10 then _csr_reset false
          else if company_identifier =? 13 then mret tt
          else if company_identifier =? 15
               then send_command HCI_Reset_Command true;; mret tt
          else if company_identifier =? 18 then mret tt
          else if company_identifier =? 48
               then send_command HCI_Reset_Command true;; mret tt
          else if company_identifier =? 57
               then send_command HCI_Reset_Command true;; mret tt
          else if company_identifier =? 305 then mret tt
          else raise (BDAddrException "Unsupported manufacturer")
        else mret tt
    end.

(** ** Worlds and addresses to run the program on *)

Definition quiet_world (cid : option Z) (events : list HCI_Event) : World :=
  {| local_version := (fun c => {| company_identifier := c |}) <$> cid;
     host_on_hci_event := host_handler 0;
     assignments := [];
     futures := [];
     sent := [];
     controller := fun _ => HCI_SUCCESS;
     inbox := events;
     handled := [];
     interrupt := None |}.

Definition sample_address : Address :=
  {| address_bytes := [xaa; xbb; xcc; xdd; xee; xff];
     address_type := PUBLIC_DEVICE_ADDRESS |}.

Definition sample_random_address : Address :=
  {| address_bytes := [xaa; xbb; xcc; xdd; xee; xff];
     address_type := RANDOM_DEVICE_ADDRESS |}.

(** A CSR completion event: channel marker, then ten zero bytes, so that the
    status bytes at offsets 9 and 10 are zero. *)
Definition csr_ok_event : HCI_Event :=
  {| event_code := 0xFF;
     parameters := [xc2; x00; x00; x00; x00; x00; x00; x00; x00; x00; x00] |}.

(** A 0xFF event cut short after the channel marker. *)
Definition short_csr_event : HCI_Event := {| event_code := 0xFF; parameters := [xc2] |}.

Definition other_event_1 : HCI_Event := {| event_code := 0x0E; parameters := [x01] |}.
Definition other_event_2 : HCI_Event := {| event_code := 0x13; parameters := [x02] |}.


(** ** The vocabulary of the specification *)

(** The error kinds of the specification are the messages the code puts in
    its one exception class. *)
Definition InvalidAddressType : Exn :=
  BDAddrException "address should be PUBLIC_DEVICE_ADDRESS".
Definition MissingIdentification : Exn := BDAddrException "No available local_version".
Definition UnsupportedManufacturer : Exn := BDAddrException "Unsupported manufacturer".
Definition CSRWriteFailed : Exn := BDAddrException "Write BDAddr (CSR) failed".

(** The vendor table of the specification (section 6), row by row. *)
Inductive Vendor := Ericsson | Intel | CSR | TI | BCM | Zeevo | ST | CYS.

#[global] Instance Vendor_eq_dec : EqDecision Vendor.
Proof. solve_decision. Defined.

Definition VendorProfile : list (Z * Vendor) :=
  [(0, Ericsson); (2, Intel); (10, CSR); (13, TI); (15, BCM); (18, Zeevo);
   (48, ST); (57, Ericsson); (305, CYS)].

Definition supported_identifiers : list Z := VendorProfile.*1.

(** The write path the code has for each vendor. *)
Definition write_path (v : Vendor) : Address -> M unit :=
  match v with
  | Ericsson => _ericsson_bdaddr
  | Intel => _intel_bdaddr
  | CSR => fun address => _csr_bdaddr address false
  | TI => _ti_bdaddr
  | BCM => _bcm_bdaddr
  | Zeevo => _zeevo_bdaddr
  | ST => _st_bdaddr
  | CYS => _cys_bdaddr
  end.

(** The reset column of the same table: nothing, the standard reset
    command, or the raw CSR reset packet. *)
Inductive ResetBehavior := no_reset | generic_reset | raw_reset.

#[global] Instance ResetBehavior_eq_dec : EqDecision ResetBehavior.
Proof. solve_decision. Defined.

Definition ResetProfile : list (Z * ResetBehavior) :=
  [(0, no_reset); (2, no_reset); (10, raw_reset); (13, no_reset);
   (15, generic_reset); (18, no_reset); (48, generic_reset);
   (57, generic_reset); (305, no_reset)].

(** What the code runs for each reset behaviour. *)
Definition reset_path (r : ResetBehavior) : M unit :=
  match r with
  | no_reset => mret tt
  | generic_reset => send_command HCI_Reset_Command true;; mret tt
  | raw_reset => _csr_reset false
  end.

(** The command the write path of a vendor hands to [send_command]; CSR's
    path sends a raw packet instead. *)
Definition standard_command (v : Vendor) (address : Address) : option HCI_Command :=
  match v with
  | Ericsson => Some (_Ericsson_Write_BDAddr_Command address)
  | Intel => Some (_Intel_Write_BDAddr_Command address)
  | CSR => None
  | TI => Some (_TI_Write_BDAddr_Command address)
  | BCM => Some (_BCM_Write_BDAddr_Command address)
  | Zeevo => Some (_Zeevo_Write_BDAddr_Command address)
  | ST => Some (_Ericsson_Store_In_Flash_Command xfe x06 (address_bytes address))
  | CYS => Some (_CYS_Write_BDAddr_Command address)
  end.

(** The two-byte status field of a CSR completion, as the specification
    words it: the low byte at offset 9 plus the high byte at offset 10
    shifted left by eight. *)
Definition status_field (res : list byte) : option Z :=
  lo ← res !! 9%nat;
  hi ← res !! 10%nat;
  Some (int_of_byte lo + Z.shiftl (int_of_byte hi) 8).

(** A payload that reports success: channel marker first, status zero. *)
Definition csr_success (res : list byte) : Prop :=
  int_of_byte <$> res !! 0%nat = Some 0xC2 /\ status_field res = Some 0.

#[global] Instance csr_success_dec res : Decision (csr_success res).
Proof. unfold csr_success. apply _. Defined.

(** A payload in which every byte the check reads is there. *)
Definition csr_readable (res : list byte) : Prop :=
  exists res0, res !! 0%nat = Some res0 /\
    (int_of_byte res0 = 0xC2 -> (11 <= length res)%nat).

(** The two templates of the CSR paths, as byte lists. *)
Definition csr_write_template : list byte :=
  default [] (fromhex "02000c001147037000000100040000000000000000000000").

Definition csr_reset_template : list byte :=
  default [] (fromhex "020009000000014000000000000000000000").

(** The body [_csr_bdaddr] assembles from six address bytes. *)
Definition csr_write_body (a0 a1 a2 a3 a4 a5 : byte) (transient : bool) : list byte :=
  [x02; x00; x0c; x00; x11; x47; x03; x70; x00; x00; x01; x00; x04; x00;
   if transient then x08 else x00; x00;
   a2; x00; a0; a1; a3; x00; a4; a5].

(** What went over the wire: for each command, how it was sent and its bytes. *)
Definition wire (s : list (SendKind * HCI_Command)) : list (SendKind * option (list byte)) :=
  (fun p => (p.1, to_bytes p.2)) <$> s.

(** Everything but the slots of the event loop is the same in two worlds. *)
Definition same_host (w w' : World) : Prop :=
  local_version w' = local_version w /\
  host_on_hci_event w' = host_on_hci_event w /\
  assignments w' = assignments w /\
  sent w' = sent w /\
  controller w' = controller w.

(** A standard vendor path [f] sends one command with command number [ocf]
    in the vendor namespace, carrying the address bytes. *)
Definition write_sent (f : Address -> M unit) (ocf : Z) (address : Address) (w : World)
  : Prop :=
  exists c,
    sent (f address w).2 = sent w ++ [(via_send_command, c)] /\
    op_code_group (op_code c) = 0x3F /\
    op_code_command (op_code c) = ocf /\
    command_parameters c = address_bytes address.

(** ** The decorator [_hci_command] (lines 64-79) *)

(** What stands in second place in a [fields] entry: the callable
    [Address.parse_address], an integer width, or the string ["*"]. *)
Inductive FieldType :=
| parse_address
| size (n : Z)
| star.

#[global] Instance FieldType_eq_dec : EqDecision FieldType.
Proof. solve_decision. Defined.

(** A command class once decorated: its Python name, and the attributes the
    decorator sets. *)
Record CommandClass := {
  class___name__ : string;
  class_name : string;
  class_op_code : Z;
  class_fields : option (list (string * FieldType));
  class_return_parameters_fields : list (string * FieldType);
  class_init_replaced : bool
}.

#[global] Instance CommandClass_eq_dec : EqDecision CommandClass.
Proof. solve_decision. Defined.

(** [str.upper] on ASCII text. *)
Definition upper_char (c : ascii) : ascii :=
  let n := nat_of_ascii c in
  if ((97 <=? n) && (n <=? 122))%nat then ascii_of_nat (n - 32) else c.

Fixpoint upper (s : string) : string :=
  match s with
  | EmptyString => EmptyString
  | String c rest => String (upper_char c) (upper rest)
  end.

(** [s.strip("_")]: underscores go from both ends. *)
Fixpoint lstrip_underscores (s : string) : string :=
  match s with
  | String c rest => if Ascii.eqb c "_" then lstrip_underscores rest else s
  | EmptyString => EmptyString
  end.

Fixpoint rstrip_underscores (s : string) : string :=
  match s with
  | EmptyString => EmptyString
  | String c rest =>
      match rstrip_underscores rest with
      | EmptyString => if Ascii.eqb c "_" then EmptyString else String c EmptyString
      | kept => String c kept
      end
  end.

Definition strip_underscores (s : string) : string :=
  lstrip_underscores (rstrip_underscores s).

(** [name or alt]: [None] and the empty string are falsy. *)
Definition name_or (name : option string) (alt : string) : string :=
  match name with
  | Some (String c rest) => String c rest
  | _ => alt
  end.

(** [_hci_command(op_code, name, fields, return_parameters_fields)(cls)]:
    the class gets its attributes, [__init__] is replaced unless [fields]
    is [None], and the class is stored in [HCI_Command.command_classes]
    under its op-code. *)
Definition _hci_command (op_code : Z) (name : option string)
    (fields : option (list (string * FieldType)))
    (return_parameters_fields : list (string * FieldType))
    (cls : string) (command_classes : gmap Z CommandClass)
  : CommandClass * gmap Z CommandClass :=
  let cls :=
    {| class___name__ := cls;
       class_name := name_or name (strip_underscores (upper cls));
       class_op_code := op_code;
       class_fields := fields;
       class_return_parameters_fields := return_parameters_fields;
       class_init_replaced := bool_decide (fields <> None) |} in
  (cls, <[class_op_code cls:=cls]> command_classes).

(** The eight decorated classes of the module, in the order of the source
    (lines 176-238): op-code, fields, class name. *)
Definition decorations : list (Z * list (string * FieldType) * string) :=
  [ (hci_command_op_code 0x3F 0x000D, [("address", parse_address)],
     "_Ericsson_Write_BDAddr_Command");
    (hci_command_op_code 0x3F 0x0022,
     [("user_id", size 1); ("length", size 1); ("data", size 253)],
     "_Ericsson_Store_In_Flash_Command");
    (hci_command_op_code 0x3F 0x0000, [("payload", star)],
     "_CSR_Write_BDAddr_Command");
    (hci_command_op_code 0x3F 0x0006, [("address", parse_address)],
     "_TI_Write_BDAddr_Command");
    (hci_command_op_code 0x3F 0x0001, [("address", parse_address)],
     "_BCM_Write_BDAddr_Command");
    (hci_command_op_code 0x3F 0x0031, [("address", parse_address)],
     "_Intel_Write_BDAddr_Command");
    (hci_command_op_code 0x3F 0x0001, [("address", parse_address)],
     "_CYS_Write_BDAddr_Command");
    (hci_command_op_code 0x3F 0x0001, [("address", parse_address)],
     "_Zeevo_Write_BDAddr_Command") ].

Definition decorate (d : Z * list (string * FieldType) * string)
    (command_classes : gmap Z CommandClass) : CommandClass * gmap Z CommandClass :=
  _hci_command d.1.1 None (Some d.1.2) [] d.2 command_classes.

(** Importing the module runs the decorators one after the other. *)
Definition import_module (command_classes : gmap Z CommandClass) : gmap Z CommandClass :=
  foldl (fun registry d => (decorate d registry).2) command_classes decorations.

(** The class a decoration produces (it does not depend on the registry). *)
Definition decorated (d : Z * list (string * FieldType) * string) : CommandClass :=
  (decorate d ∅).1.

(** The Python name of a class and the name the decorator gave it. *)
Definition names_of (c : CommandClass) : string * string :=
  (class___name__ c, class_name c).

(** The six op-codes under which the module registers classes. *)
Definition module_op_codes : list Z :=
  [hci_command_op_code 0x3F 0x000D; hci_command_op_code 0x3F 0x0022;
   hci_command_op_code 0x3F 0x0000; hci_command_op_code 0x3F 0x0006;
   hci_command_op_code 0x3F 0x0001; hci_command_op_code 0x3F 0x0031].

(** A lower-case ASCII letter. *)
Definition is_lower (c : ascii) : bool :=
  ((97 <=? nat_of_ascii c) && (nat_of_ascii c <=? 122))%nat.

(** The handler at the bottom of a chain of closures. *)
Fixpoint innermost (h : Handler) : nat :=
  match h with
  | host_handler ident => ident
  | on_hci_event _ origin_on_hci_event => innermost origin_on_hci_event
  end.

(** From one world to the next the host's identification, handler and
    controller are the same and at most [n] commands were sent. *)
Definition sends_at_most (n : nat) (w w' : World) : Prop :=
  local_version w' = local_version w /\
  host_on_hci_event w' = host_on_hci_event w /\
  controller w' = controller w /\
  exists news, sent w' = sent w ++ news /\ (length news <= n)%nat.

(** A world whose controller answers [status] to everything. *)
Definition world_answering (status : Z) (cid : Z) : World :=
  {| local_version := Some {| company_identifier := cid |};
     host_on_hci_event := host_handler 0;
     assignments := [];
     futures := [];
     sent := [];
     controller := fun _ => status;
     inbox := [];
     handled := [];
     interrupt := None |}.

(** A world whose controller refuses only the four-byte packet, the reset. *)
Definition world_refusing_reset (status : Z) (cid : Z) : World :=
  {| local_version := Some {| company_identifier := cid |};
     host_on_hci_event := host_handler 0;
     assignments := [];
     futures := [];
     sent := [];
     controller := fun packet => if (length packet =? 4)%nat then status else HCI_SUCCESS;
     inbox := [];
     handled := [];
     interrupt := None |}.

(** * Properties *)

(** ** Bytes and op-codes *)

Lemma int_of_byte_nonneg b : 0 <= int_of_byte b.
Proof. unfold int_of_byte. apply N2Z.is_nonneg. Qed.

(** Python reads [res[9] + res[10] << 8] as [(res[9] + res[10]) << 8]; on
    bytes this is zero exactly when the status field of the specification
    is. *)
Lemma shifted_sum_zero lo hi :
  Z.shiftl (int_of_byte lo + int_of_byte hi) 8 = 0 <->
  int_of_byte lo + Z.shiftl (int_of_byte hi) 8 = 0.
Proof.
  pose proof (int_of_byte_nonneg lo). pose proof (int_of_byte_nonneg hi).
  rewrite !Z.shiftl_mul_pow2 by lia. lia.
Qed.

Lemma supported_identifiers_list :
  supported_identifiers = [0; 2; 10; 13; 15; 18; 48; 57; 305].
Proof. reflexivity. Qed.

Lemma csr_write_template_bytes :
  csr_write_template = csr_write_body x00 x00 x00 x00 x00 x00 false.
Proof. reflexivity. Qed.

(** ** Handlers never touch the host *)

Ltac run_M :=
  unfold getitem, setitem, set_result, set_exception, get_on_hci_event,
    set_on_hci_event, get_local_version, create_future, checkpoint in *;
  unfold resolve, of_option, mbind, M_bind, mret, M_ret, raise in *; simpl in *.

Lemma same_host_refl w : same_host w w.
Proof. by repeat split. Qed.

Lemma same_host_trans w1 w2 w3 : same_host w1 w2 -> same_host w2 w3 -> same_host w1 w3.
Proof. unfold same_host. intros (?&?&?&?&?) (?&?&?&?&?). repeat split; congruence. Qed.

Lemma resolve_same_host future v w : same_host w (resolve future v w).2.
Proof. unfold resolve. repeat case_match; by repeat split. Qed.

Lemma call_same_host h event w : same_host w (call h event w).2.
Proof.
  revert w. induction h as [ident|future origin IH]; intros w; simpl.
  - by repeat split.
  - destruct (event_code event =? 255); [|apply IH].
    run_M. repeat case_match; simplify_eq/=; by repeat split.
Qed.

Lemma deliver_same_host event w : same_host w (deliver event w).
Proof. apply call_same_host. Qed.

Lemma await_loop_same_host future events w : same_host w (await_loop future events w).2.
Proof.
  revert w. induction events as [|event rest IH]; intros w; simpl.
  - repeat case_match; by repeat split.
  - repeat case_match; try by repeat split.
    all: eapply same_host_trans; [apply (deliver_same_host event)|apply IH].
Qed.

(** ** [_csr_get_response]: what happens around the [try] statement *)

Lemma lookup_snoc_length {A} (l : list A) (x : A) : (l ++ [x]) !! length l = Some x.
Proof. by apply list_lookup_middle. Qed.

Lemma insert_snoc_length {A} (l : list A) (x y : A) : <[length l:=y]> (l ++ [x]) = l ++ [y].
Proof. induction l as [|a l IH]; simpl; [done|by rewrite IH]. Qed.

(** The closure is never the handler it wraps. *)
Lemma closure_neq_origin future h : on_hci_event future h <> h.
Proof.
  revert future. induction h as [ident|future' origin IH]; intros future Heq.
  - discriminate.
  - injection Heq as _ Heq. by apply (IH future').
Qed.

(** Without an interrupt the [try] body installs the closure, the [finally]
    clause puts the saved handler back, and only then is the future awaited. *)
Lemma csr_get_response_normal w :
  interrupt w = None ->
  _csr_get_response w =
    await_loop (length (futures w)) (inbox w)
      (with_handler (host_on_hci_event w)
         (with_handler (on_hci_event (length (futures w)) (host_on_hci_event w))
            (with_futures (futures w ++ [PENDING]) w))).
Proof.
  intros Hint. unfold _csr_get_response, try_except_finally, await.
  run_M. by rewrite Hint.
Qed.

(** With an interrupt in the [try] body the bare [except] fails the future,
    the [finally] clause still assigns the saved handler, and the [await]
    raises at once. *)
Lemma csr_get_response_interrupted w e :
  interrupt w = Some e ->
  _csr_get_response w =
    (Raise (BDAddrException "Some error occurred"),
     with_handler (host_on_hci_event w)
       (with_futures
          (futures w ++ [FINISHED_exception (BDAddrException "Some error occurred")])
          (with_interrupt None w))).
Proof.
  intros Hint. unfold _csr_get_response, try_except_finally, await.
  run_M. rewrite Hint. simpl.
  rewrite lookup_snoc_length. simpl. rewrite insert_snoc_length.
  destruct w as [lv slot asg futs snt ctl inb hdl irq]; simpl in *.
  destruct inb as [|event rest]; simpl; by rewrite lookup_snoc_length.
Qed.

(** While the slot holds a pre-existing handler, every event goes to it and
    the awaited future stays pending. *)
Lemma await_loop_host_handler future ident events w :
  host_on_hci_event w = host_handler ident ->
  futures w !! future = Some PENDING ->
  await_loop future events w =
    (Suspended,
     with_inbox [] (with_handled (handled w ++ ((fun e => (ident, e)) <$> events)) w)).
Proof.
  revert w. induction events as [|event rest IH]; intros w Hslot Hpending; simpl.
  - rewrite Hpending, app_nil_r. by destruct w.
  - rewrite Hpending. unfold deliver. rewrite Hslot. simpl.
    rewrite IH by done. simpl. by rewrite <- app_assoc.
Qed.

(** The same for the whole of [_csr_get_response]: called with a
    pre-existing handler installed, it never returns, whatever the
    controller sends, and every event lands on that handler. *)
Lemma csr_get_response_never_resolves ident w :
  host_on_hci_event w = host_handler ident ->
  interrupt w = None ->
  (_csr_get_response w).1 = Suspended /\
  futures (_csr_get_response w).2 = futures w ++ [PENDING] /\
  handled (_csr_get_response w).2 = handled w ++ ((fun e => (ident, e)) <$> inbox w).
Proof.
  intros Hslot Hint. rewrite csr_get_response_normal by done.
  rewrite (await_loop_host_handler _ ident); simpl; [done|by rewrite Hslot|].
  apply lookup_snoc_length.
Qed.

(** Had the closure still been installed while the future is awaited, the
    first two events of this run would have gone to the old handler and the
    third would have resolved the future. *)
Lemma closure_installed_resolves_on_third :
  let w := with_handler (on_hci_event 0 (host_handler 0))
             (with_futures [PENDING] (quiet_world (Some 10) [])) in
  let r := await_loop 0 [other_event_1; other_event_2; csr_ok_event] w in
  r.1 = Return tt /\
  futures r.2 = [FINISHED_result] /\
  handled r.2 = [(0%nat, other_event_1); (0%nat, other_event_2)].
Proof. vm_compute. by repeat split. Qed.

(** C1 — the run the claim describes: two unrelated events, then a 0xFF
    event with first byte 0xC2 and zero status, arriving while
    [_csr_get_response] awaits.  The [finally] clause has already put the
    old handler back, so all three events reach the old handler, the future
    is still pending when the events run out, and the coroutine never
    resumes. *)
Theorem csr_third_notification_goes_unanswered :
  let w := quiet_world (Some 10) [other_event_1; other_event_2; csr_ok_event] in
  let r := _csr_get_response w in
  r.1 = Suspended /\
  futures r.2 = [PENDING] /\
  handled r.2 =
    [(0%nat, other_event_1); (0%nat, other_event_2); (0%nat, csr_ok_event)] /\
  assignments r.2 = [on_hci_event 0 (host_handler 0); host_handler 0] /\
  host_on_hci_event r.2 = host_handler 0.
Proof. vm_compute. by repeat split. Qed.

(** C6 — whatever way [_csr_get_response] ends (it raises after a failed
    setup, it is left suspended, it returns), the handler slot holds the
    handler saved at entry, and among the assignments the call made the
    saved handler was assigned exactly once, last. *)
Theorem csr_get_response_restores_handler (w : World) :
  let origin := host_on_hci_event w in
  let w' := (_csr_get_response w).2 in
  host_on_hci_event w' = origin /\
  exists news,
    assignments w' = assignments w ++ news /\
    last news = Some origin /\
    count_occ Handler_eq_dec news origin = 1%nat.
Proof.
  intros origin w'. subst origin w'.
  destruct (interrupt w) as [e|] eqn:Hint.
  - rewrite (csr_get_response_interrupted w e) by done. simpl.
    split; [done|]. exists [host_on_hci_event w]. simpl.
    repeat split. by destruct (Handler_eq_dec _ _).
  - rewrite csr_get_response_normal by done.
    match goal with
    | |- context [await_loop ?n ?evs ?w0] =>
        destruct (await_loop_same_host n evs w0) as (_ & Hslot & Hasg & _)
    end.
    rewrite Hslot, Hasg. simpl. split; [done|].
    exists [on_hci_event (length (futures w)) (host_on_hci_event w); host_on_hci_event w].
    rewrite <- app_assoc. simpl. repeat split.
    repeat case_match; try done.
    exfalso. by eapply closure_neq_origin.
Qed.

(** ** The closure [on_hci_event] *)

(** On a readable 0xFF payload the closure resolves its pending future, one
    way or the other, and changes nothing else. *)
Lemma call_closure_readable future origin event w :
  event_code event = 0xFF ->
  futures w !! future = Some PENDING ->
  csr_readable (parameters event) ->
  call (on_hci_event future origin) event w =
    (Return tt,
     with_futures
       (<[future:=if bool_decide (csr_success (parameters event))
                  then FINISHED_result else FINISHED_exception CSRWriteFailed]>
          (futures w)) w).
Proof.
  intros Hcode Hpending (res0 & H0 & Hlen). simpl. rewrite Hcode. simpl.
  run_M. rewrite H0. simpl.
  destruct (int_of_byte res0 =? 194) eqn:Hmark.
  - apply Z.eqb_eq in Hmark. specialize (Hlen Hmark).
    destruct (lookup_lt_is_Some_2 (parameters event) 9) as [res9 H9]; [lia|].
    destruct (lookup_lt_is_Some_2 (parameters event) 10) as [res10 H10]; [lia|].
    rewrite H9, H10. simpl.
    destruct (_ =? 0) eqn:Hstatus; rewrite Hpending.
    + apply Z.eqb_eq, shifted_sum_zero in Hstatus.
      rewrite bool_decide_eq_true_2; [done|].
      unfold csr_success, status_field. rewrite H0, H9, H10. simpl.
      by rewrite Hmark, Hstatus.
    + apply Z.eqb_neq in Hstatus.
      rewrite bool_decide_eq_false_2; [done|].
      unfold csr_success, status_field. rewrite H0, H9, H10. simpl.
      intros [_ Hzero]. apply Hstatus, shifted_sum_zero. congruence.
  - apply Z.eqb_neq in Hmark. rewrite Hpending.
    rewrite bool_decide_eq_false_2; [done|].
    unfold csr_success. rewrite H0. simpl. intros [Hres0 _]. congruence.
Qed.

(** C5, as stated, fails on a 0xFF event whose payload is the channel marker
    alone: it does not report success, yet the closure raises [IndexError]
    at [res[9]] and the pending future is not failed. *)
Lemma short_payload_resolves_nothing :
  let w := with_futures [PENDING] (quiet_world (Some 10) []) in
  let r := call (on_hci_event 0 (host_handler 0)) short_csr_event w in
  event_code short_csr_event = 0xFF /\
  futures w !! 0%nat = Some PENDING /\
  ~ csr_success (parameters short_csr_event) /\
  r.1 = Raise IndexError /\
  futures r.2 !! 0%nat = Some PENDING /\
  futures r.2 !! 0%nat <> Some (FINISHED_exception CSRWriteFailed).
Proof.
  vm_compute. repeat split; try done. intros [_ ?]. done.
Qed.

(** C5 (amended) — a 0xFF event handled by the closure while its future is
    pending, with a payload that holds every byte the check reads: the
    future is resolved with success exactly when the first byte is 0xC2 and
    the status field (low byte plus high byte shifted left by 8) is zero,
    and is failed with [CSRWriteFailed] otherwise. *)
Theorem on_hci_event_resolution future origin event w :
  event_code event = 0xFF ->
  futures w !! future = Some PENDING ->
  csr_readable (parameters event) ->
  let r := call (on_hci_event future origin) event w in
  (csr_success (parameters event) ->
     r = (Return tt, with_futures (<[future:=FINISHED_result]> (futures w)) w)) /\
  (~ csr_success (parameters event) ->
     r = (Return tt,
          with_futures (<[future:=FINISHED_exception CSRWriteFailed]> (futures w)) w)) /\
  (futures r.2 !! future = Some FINISHED_result <-> csr_success (parameters event)).
Proof.
  intros Hcode Hpending Hread r. subst r.
  rewrite call_closure_readable by done.
  assert (future < length (futures w))%nat by by eapply lookup_lt_Some.
  case_bool_decide as Hok; simpl; rewrite list_lookup_insert_eq by done.
  - split; [done|]. split; [by intros Hno|]. by split.
  - split; [by intros Hyes|]. split; [done|]. split; [intros [=]|by intros Hyes].
Qed.

Lemma on_hci_event_resolution_witness :
  call (on_hci_event 0 (host_handler 0)) csr_ok_event
    (with_futures [PENDING] (quiet_world (Some 10) [])) =
  (Return tt, with_futures [FINISHED_result] (quiet_world (Some 10) [])).
Proof.
  refine (proj1 (on_hci_event_resolution 0 (host_handler 0) csr_ok_event
                   (with_futures [PENDING] (quiet_world (Some 10) [])) _ _ _) _).
  - reflexivity.
  - reflexivity.
  - exists xc2. split; [reflexivity|]. intros _. simpl. lia.
  - vm_compute. by split.
Defined.

(** ** Sending *)

Lemma bind_ret_unit (m : M unit) w : (m;; mret tt) w = m w.
Proof. run_M. destruct (m w) as [[[]| |] w']; done. Qed.

Lemma bind_ret_snd {A} (m : M A) w : ((m;; mret tt) w).2 = (m w).2.
Proof. run_M. destruct (m w) as [[a| |] w']; done. Qed.

Lemma byte_of_N_small n : (n < 256)%N -> is_Some (Byte.of_N n).
Proof.
  intros Hn. destruct (Byte.of_N n) eqn:Hb; [by eexists|].
  apply Byte.of_N_None_iff in Hb. lia.
Qed.

(** A command whose op-code fits 16 bits and whose parameters fit 255 bytes
    has a packet. *)
Lemma to_bytes_is_Some c :
  0 <= op_code c < 65536 ->
  (length (command_parameters c) < 256)%nat ->
  is_Some (to_bytes c).
Proof.
  intros Hop Hlen. unfold to_bytes.
  destruct (Z.leb_spec 0 (op_code c)); [|lia].
  destruct (Z.ltb_spec (op_code c) 65536); [|lia].
  destruct (Z.ltb_spec (Z.of_nat (length (command_parameters c))) 256); [|lia].
  simpl.
  destruct (byte_of_N_small (Z.to_N (op_code c `mod` 256))) as [lo ->].
  { pose proof (Z.mod_pos_bound (op_code c) 256). lia. }
  destruct (byte_of_N_small (Z.to_N (op_code c `div` 256))) as [hi ->].
  { assert (0 <= op_code c `div` 256 < 256)
      by (split; [apply Z.div_pos|apply Z.div_lt_upper_bound]; lia).
    lia. }
  destruct (byte_of_N_small (Z.to_N (Z.of_nat (length (command_parameters c))))) as [len ->].
  { lia. }
  by eexists.
Qed.

Lemma send_command_sent c check w :
  is_Some (to_bytes c) ->
  sent (send_command c check w).2 = sent w ++ [(via_send_command, c)].
Proof. intros [packet Hp]. unfold send_command. rewrite Hp. by case_match. Qed.

Lemma send_command_success c w :
  is_Some (to_bytes c) ->
  (forall packet, controller w packet = HCI_SUCCESS) ->
  send_command c true w =
    (Return HCI_SUCCESS, with_sent (sent w ++ [(via_send_command, c)]) w).
Proof. intros [packet Hp] Hok. unfold send_command. by rewrite Hp, Hok. Qed.

Lemma csr_get_response_sent w : sent (_csr_get_response w).2 = sent w.
Proof.
  destruct (interrupt w) as [e|] eqn:Hint.
  - by rewrite (csr_get_response_interrupted w e).
  - rewrite csr_get_response_normal by done.
    match goal with
    | |- context [await_loop ?n ?evs ?w0] =>
        destruct (await_loop_same_host n evs w0) as (_ & _ & _ & Hsent & _)
    end.
    by rewrite Hsent.
Qed.

(** ** The CSR encoder *)

(** With six address bytes no index is out of range: the body is assembled,
    prefixed, sent raw, and the response awaited. *)
Lemma csr_bdaddr_six a0 a1 a2 a3 a4 a5 t transient w :
  _csr_bdaddr {| address_bytes := [a0; a1; a2; a3; a4; a5]; address_type := t |}
    transient w =
  _csr_get_response
    (with_sent
       (sent w ++
        [(via_send_hci_packet,
          _CSR_Write_BDAddr_Command (xc2 :: csr_write_body a0 a1 a2 a3 a4 a5 transient))])
       w).
Proof. by destruct transient. Qed.

Lemma csr_reset_sends_template w :
  _csr_reset false w =
  _csr_get_response
    (with_sent
       (sent w ++
        [(via_send_hci_packet, _CSR_Write_BDAddr_Command (xc2 :: csr_reset_template))])
       w).
Proof. done. Qed.

Lemma csr_reset_template_length : length csr_reset_template = 18%nat.
Proof. reflexivity. Qed.

(** C2 — for a six-byte address the packet [_csr_bdaddr] sends starts with
    0xC2, and the body after it holds the address bytes at offsets 16-23 in
    the order 2, zero, 0, 1, 3, zero, 4, 5, the transient flag (0x00 or
    0x08) at offset 14, and the template everywhere else. *)
Theorem csr_write_packet_layout address transient w a0 a1 a2 a3 a4 a5 :
  address_bytes address = [a0; a1; a2; a3; a4; a5] ->
  exists body,
    sent (_csr_bdaddr address transient w).2 =
      sent w ++ [(via_send_hci_packet, _CSR_Write_BDAddr_Command (xc2 :: body))] /\
    body !! 16%nat = Some a2 /\
    body !! 17%nat = Some x00 /\
    body !! 18%nat = Some a0 /\
    body !! 19%nat = Some a1 /\
    body !! 20%nat = Some a3 /\
    body !! 21%nat = Some x00 /\
    body !! 22%nat = Some a4 /\
    body !! 23%nat = Some a5 /\
    body !! 14%nat = Some (if transient then x08 else x00) /\
    forall i : nat, i <> 14%nat -> ~ (16 <= i <= 23)%nat ->
      body !! i = csr_write_template !! i.
Proof.
  intros Hbytes. destruct address as [bytes t]. simpl in Hbytes. subst bytes.
  exists (csr_write_body a0 a1 a2 a3 a4 a5 transient).
  rewrite csr_bdaddr_six, csr_get_response_sent. simpl.
  do 10 (split; [done|]).
  intros i H14 Hrange.
  do 24 (destruct i as [|i]; [done || lia|]). done.
Qed.

Lemma csr_write_packet_layout_witness :
  exists body,
    sent (_csr_bdaddr sample_address true (quiet_world (Some 10) [])).2 =
      [(via_send_hci_packet, _CSR_Write_BDAddr_Command (xc2 :: body))] /\
    body !! 16%nat = Some xcc /\ body !! 14%nat = Some x08.
Proof.
  destruct (csr_write_packet_layout sample_address true (quiet_world (Some 10) [])
              xaa xbb xcc xdd xee xff eq_refl)
    as (body & Hsent & H16 & _ & _ & _ & _ & _ & _ & _ & H14 & _).
  exists body. by repeat split.
Defined.

(** C4, as stated, fails: for the sample address the body after the 0xC2
    prefix is not 19 bytes long. *)
Lemma csr_write_body_not_19_bytes :
  ~ exists body,
      length body = 19%nat /\
      sent (_csr_bdaddr sample_address false (quiet_world (Some 10) [])).2 =
        [(via_send_hci_packet, _CSR_Write_BDAddr_Command (xc2 :: body))].
Proof.
  intros (body & Hlen & Hsent).
  change sample_address
    with {| address_bytes := [xaa; xbb; xcc; xdd; xee; xff];
            address_type := PUBLIC_DEVICE_ADDRESS |} in Hsent.
  rewrite csr_bdaddr_six, csr_get_response_sent in Hsent. simpl in Hsent.
  by simplify_eq.
Qed.

(** C4 (amended) — for a six-byte address the packet assembled
    non-transiently is one 0xC2 byte followed by a 24-byte body, 25 bytes in
    all. *)
Theorem csr_write_packet_length address w :
  length (address_bytes address) = 6%nat ->
  exists body,
    sent (_csr_bdaddr address false w).2 =
      sent w ++ [(via_send_hci_packet, _CSR_Write_BDAddr_Command (xc2 :: body))] /\
    length body = 24%nat /\
    length (command_parameters (_CSR_Write_BDAddr_Command (xc2 :: body))) = 25%nat.
Proof.
  intros Hlen. destruct address as [bytes t]. simpl in Hlen.
  do 6 (destruct bytes as [|? bytes]; [done|]).
  destruct bytes; [|done].
  eexists. rewrite csr_bdaddr_six, csr_get_response_sent. simpl.
  by repeat split.
Qed.

Lemma csr_write_packet_length_witness :
  exists body,
    sent (_csr_bdaddr sample_address false (quiet_world (Some 10) [])).2 =
      [(via_send_hci_packet, _CSR_Write_BDAddr_Command (xc2 :: body))] /\
    length body = 24%nat.
Proof.
  destruct (csr_write_packet_length sample_address (quiet_world (Some 10) []) eq_refl)
    as (body & Hsent & Hlen & _).
  exists body. by split.
Defined.

(** ** The standard vendor paths *)

Ltac one_address_command Hlen :=
  rewrite bind_ret_snd;
  apply send_command_sent, to_bytes_is_Some; simpl; unfold address_field;
  [by vm_compute | rewrite Hlen; lia].

(** C7 — each of the six standard paths sends one command in the vendor
    namespace 0x3F, with the command number of its vendor and with the six
    address bytes, in order, as its parameters. *)
Theorem standard_vendor_write_commands address w :
  length (address_bytes address) = 6%nat ->
  write_sent _ericsson_bdaddr 0x000D address w /\
  write_sent _intel_bdaddr 0x0031 address w /\
  write_sent _ti_bdaddr 0x0006 address w /\
  write_sent _bcm_bdaddr 0x0001 address w /\
  write_sent _zeevo_bdaddr 0x0001 address w /\
  write_sent _cys_bdaddr 0x0001 address w.
Proof.
  intros Hlen. unfold write_sent. repeat split.
  - exists (_Ericsson_Write_BDAddr_Command address).
    split; [unfold _ericsson_bdaddr; one_address_command Hlen|done].
  - exists (_Intel_Write_BDAddr_Command address).
    split; [unfold _intel_bdaddr; one_address_command Hlen|done].
  - exists (_TI_Write_BDAddr_Command address).
    split; [unfold _ti_bdaddr; one_address_command Hlen|done].
  - exists (_BCM_Write_BDAddr_Command address).
    split; [unfold _bcm_bdaddr; one_address_command Hlen|done].
  - exists (_Zeevo_Write_BDAddr_Command address).
    split; [unfold _zeevo_bdaddr; one_address_command Hlen|done].
  - exists (_CYS_Write_BDAddr_Command address).
    split; [unfold _cys_bdaddr; one_address_command Hlen|done].
Qed.

Lemma standard_vendor_write_commands_witness :
  write_sent _ericsson_bdaddr 0x000D sample_address (quiet_world (Some 0) []) /\
  write_sent _cys_bdaddr 0x0001 sample_address (quiet_world (Some 305) []).
Proof.
  destruct (standard_vendor_write_commands sample_address (quiet_world (Some 0) []) eq_refl)
    as (Hericsson & _).
  destruct (standard_vendor_write_commands sample_address (quiet_world (Some 305) []) eq_refl)
    as (_ & _ & _ & _ & _ & Hcys).
  by split.
Defined.

(** C10 — the BCM, Zeevo and CYS paths build commands that differ in class
    name only: same op-code (namespace 0x3F, command 0x0001), same
    parameters, same packet bytes; run from the same world they end the
    same way, put the same bytes on the wire, and leave the rest of the
    world the same. *)
Theorem bcm_zeevo_cys_same_packets address w :
  let b := _bcm_bdaddr address w in
  let z := _zeevo_bdaddr address w in
  let c := _cys_bdaddr address w in
  (op_code (_BCM_Write_BDAddr_Command address) = hci_command_op_code 0x3F 0x0001 /\
   op_code (_Zeevo_Write_BDAddr_Command address) = hci_command_op_code 0x3F 0x0001 /\
   op_code (_CYS_Write_BDAddr_Command address) = hci_command_op_code 0x3F 0x0001) /\
  (to_bytes (_BCM_Write_BDAddr_Command address) =
     to_bytes (_Zeevo_Write_BDAddr_Command address) /\
   to_bytes (_Zeevo_Write_BDAddr_Command address) =
     to_bytes (_CYS_Write_BDAddr_Command address)) /\
  (b.1 = z.1 /\ z.1 = c.1) /\
  (wire (sent b.2) = wire (sent z.2) /\ wire (sent z.2) = wire (sent c.2)) /\
  (with_sent [] b.2 = with_sent [] z.2 /\ with_sent [] z.2 = with_sent [] c.2).
Proof.
  intros b z c. subst b z c.
  split; [done|]. split; [done|].
  unfold _bcm_bdaddr, _zeevo_bdaddr, _cys_bdaddr, send_command. run_M.
  change (to_bytes (_Zeevo_Write_BDAddr_Command address))
    with (to_bytes (_BCM_Write_BDAddr_Command address)).
  change (to_bytes (_CYS_Write_BDAddr_Command address))
    with (to_bytes (_BCM_Write_BDAddr_Command address)).
  destruct (to_bytes (_BCM_Write_BDAddr_Command address)) as [packet|] eqn:Hp;
    [|done].
  destruct (negb (controller w packet =? HCI_SUCCESS)); simpl;
    unfold wire; rewrite !fmap_app; simpl;
    change (to_bytes (_Zeevo_Write_BDAddr_Command address))
      with (to_bytes (_BCM_Write_BDAddr_Command address));
    change (to_bytes (_CYS_Write_BDAddr_Command address))
      with (to_bytes (_BCM_Write_BDAddr_Command address));
    done.
Qed.

(** ** The dispatcher *)

(** C9 — with an address that is not of the public type [bdaddr] raises the
    address-type error straight away and leaves the world as it found it:
    no command sent, no future created, no handler assigned, for any
    company identifier (or none) and either value of [reset]. *)
Theorem bdaddr_rejects_non_public address reset w :
  address_type address <> PUBLIC_DEVICE_ADDRESS ->
  bdaddr address reset w = (Raise InvalidAddressType, w).
Proof.
  intros Htype. unfold bdaddr.
  by destruct (Z.eqb_spec (address_type address) PUBLIC_DEVICE_ADDRESS).
Qed.

Lemma bdaddr_rejects_non_public_witness :
  bdaddr sample_random_address true (quiet_world (Some 15) []) =
    (Raise InvalidAddressType, quiet_world (Some 15) []).
Proof.
  apply (bdaddr_rejects_non_public sample_random_address true (quiet_world (Some 15) [])).
  vm_compute. discriminate.
Defined.

Lemma vendor_profile_cases cid v :
  (cid, v) ∈ VendorProfile ->
  (cid, v) = (0, Ericsson) \/ (cid, v) = (2, Intel) \/ (cid, v) = (10, CSR) \/
  (cid, v) = (13, TI) \/ (cid, v) = (15, BCM) \/ (cid, v) = (18, Zeevo) \/
  (cid, v) = (48, ST) \/ (cid, v) = (57, Ericsson) \/ (cid, v) = (305, CYS).
Proof.
  unfold VendorProfile. rewrite !elem_of_cons, elem_of_nil. tauto.
Qed.

(** With a public address and a company identifier of the table, [bdaddr]
    without reset is the write path of the vendor in that row. *)
Lemma bdaddr_runs_write_path address w cid v :
  address_type address = PUBLIC_DEVICE_ADDRESS ->
  local_version w = Some {| company_identifier := cid |} ->
  (cid, v) ∈ VendorProfile ->
  bdaddr address false w = write_path v address w.
Proof.
  intros Htype Hlv Hrow. unfold bdaddr. rewrite Htype. simpl.
  unfold get_local_version. unfold mbind at 1, M_bind at 1. rewrite Hlv. simpl.
  apply vendor_profile_cases in Hrow.
  destruct Hrow as [H|[H|[H|[H|[H|[H|[H|[H|H]]]]]]]]; simplify_eq; simpl;
    apply bind_ret_unit.
Qed.

Lemma reset_profile_cases cid r :
  (cid, r) ∈ ResetProfile ->
  (cid, r) = (0, no_reset) \/ (cid, r) = (2, no_reset) \/ (cid, r) = (10, raw_reset) \/
  (cid, r) = (13, no_reset) \/ (cid, r) = (15, generic_reset) \/
  (cid, r) = (18, no_reset) \/ (cid, r) = (48, generic_reset) \/
  (cid, r) = (57, generic_reset) \/ (cid, r) = (305, no_reset).
Proof.
  unfold ResetProfile. rewrite !elem_of_cons, elem_of_nil. tauto.
Qed.

(** With a public address and a company identifier of the table, [bdaddr]
    is the write path of the identifier's row followed, when a reset is
    asked, by the reset of that row, and by nothing otherwise. *)
Lemma bdaddr_runs_paths address reset w cid v r :
  address_type address = PUBLIC_DEVICE_ADDRESS ->
  local_version w = Some {| company_identifier := cid |} ->
  (cid, v) ∈ VendorProfile ->
  (cid, r) ∈ ResetProfile ->
  bdaddr address reset w =
    (write_path v address;; if reset then reset_path r else mret tt) w.
Proof.
  intros Htype Hlv Hrow Hreset. unfold bdaddr. rewrite Htype. simpl.
  unfold get_local_version. unfold mbind at 1, M_bind at 1. rewrite Hlv. simpl.
  apply vendor_profile_cases in Hrow. apply reset_profile_cases in Hreset.
  destruct Hrow as [H|[H|[H|[H|[H|[H|[H|[H|H]]]]]]]]; simplify_eq;
    destruct Hreset as [H|[H|[H|[H|[H|[H|[H|[H|H]]]]]]]]; simplify_eq;
    reflexivity.
Qed.

(** C3 — for a public address: without cached identification [bdaddr]
    fails with the missing-identification error; with an identifier outside
    0, 2, 10, 13, 15, 18, 48, 57, 305 it fails with the
    unsupported-manufacturer error, nothing sent; with an identifier of that
    set the table has exactly one vendor for it and [bdaddr], with or
    without reset, runs that vendor's write path, once and first, followed
    only by the reset of the identifier's row when a reset is asked; 0 and
    57 are both Ericsson. *)
Theorem bdaddr_dispatch address reset w :
  address_type address = PUBLIC_DEVICE_ADDRESS ->
  (local_version w = None ->
     bdaddr address reset w = (Raise MissingIdentification, w)) /\
  (forall cid,
     local_version w = Some {| company_identifier := cid |} ->
     cid ∉ [0; 2; 10; 13; 15; 18; 48; 57; 305] ->
     bdaddr address reset w = (Raise UnsupportedManufacturer, w)) /\
  (forall cid,
     local_version w = Some {| company_identifier := cid |} ->
     cid ∈ [0; 2; 10; 13; 15; 18; 48; 57; 305] ->
     exists v r,
       (cid, v) ∈ VendorProfile /\
       (forall v', (cid, v') ∈ VendorProfile -> v' = v) /\
       (cid, r) ∈ ResetProfile /\
       bdaddr address reset w =
         (write_path v address;; if reset then reset_path r else mret tt) w /\
       bdaddr address false w = write_path v address w) /\
  write_path Ericsson = _ericsson_bdaddr /\
  (0, Ericsson) ∈ VendorProfile /\ (57, Ericsson) ∈ VendorProfile.
Proof.
  intros Htype. split; [|split; [|split]].
  - intros Hlv. unfold bdaddr. rewrite Htype. simpl.
    unfold get_local_version. unfold mbind at 1, M_bind at 1. by rewrite Hlv.
  - intros cid Hlv Hout. rewrite !not_elem_of_cons in Hout.
    unfold bdaddr. rewrite Htype. simpl.
    unfold get_local_version. unfold mbind at 1, M_bind at 1. rewrite Hlv. simpl.
    repeat (match goal with
            | |- context [cid =? ?k] => destruct (Z.eqb_spec cid k); [lia|]
            end).
    done.
  - intros cid Hlv Hin. rewrite !elem_of_cons, elem_of_nil in Hin.
    assert (exists v r, (cid, v) ∈ VendorProfile /\
                        (forall v', (cid, v') ∈ VendorProfile -> v' = v) /\
                        (cid, r) ∈ ResetProfile) as (v & r & Hrow & Huniq & Hreset).
    { destruct Hin as [->|[->|[->|[->|[->|[->|[->|[->|[->|[]]]]]]]]]];
        eexists; eexists;
        (split; [unfold VendorProfile; rewrite !elem_of_cons; tauto|]);
        (split; [|unfold ResetProfile; rewrite !elem_of_cons; tauto]);
        intros v' Hv'; apply vendor_profile_cases in Hv';
        destruct Hv' as [H|[H|[H|[H|[H|[H|[H|[H|H]]]]]]]]; by simplify_eq. }
    exists v, r. split; [done|]. split; [done|]. split; [done|]. split.
    + by apply (bdaddr_runs_paths address reset w cid v r).
    + by apply (bdaddr_runs_write_path address w cid v).
  - split; [done|]. unfold VendorProfile. rewrite !elem_of_cons. tauto.
Qed.

Lemma bdaddr_dispatch_witness :
  bdaddr sample_address false (quiet_world None []) =
    (Raise MissingIdentification, quiet_world None []) /\
  bdaddr sample_address true (quiet_world (Some 7) []) =
    (Raise UnsupportedManufacturer, quiet_world (Some 7) []) /\
  exists v r,
    (57, v) ∈ VendorProfile /\ (57, r) ∈ ResetProfile /\
    bdaddr sample_address true (quiet_world (Some 57) []) =
      (write_path v sample_address;; reset_path r) (quiet_world (Some 57) []) /\
    bdaddr sample_address false (quiet_world (Some 57) []) =
      write_path v sample_address (quiet_world (Some 57) []).
Proof.
  split; [|split].
  - by apply (bdaddr_dispatch sample_address false (quiet_world None []) eq_refl).
  - destruct (bdaddr_dispatch sample_address true (quiet_world (Some 7) []) eq_refl)
      as (_ & Hout & _).
    apply (Hout 7 eq_refl).
    rewrite !not_elem_of_cons. repeat split; try done. apply not_elem_of_nil.
  - destruct (bdaddr_dispatch sample_address true (quiet_world (Some 57) []) eq_refl)
      as (_ & _ & Hin & _).
    destruct (Hin 57 eq_refl) as (v & r & Hrow & _ & Hreset & Hrun & Hwrite).
    + rewrite !elem_of_cons. tauto.
    + by exists v, r.
Defined.

(** ** Reset *)

Lemma bind_assoc_at {A B C} (m : M A) (f : A -> M B) (g : B -> M C) w :
  ((m ≫= f) ≫= g) w = (m ≫= (fun a => f a ≫= g)) w.
Proof. run_M. destruct (m w) as [[a| |] w']; done. Qed.

Lemma bind_mret_at {A B} (a : A) (k : A -> M B) w : (mret a ≫= k) w = k a w.
Proof. done. Qed.

Lemma bind_send_command_success {B} c (k : Z -> M B) w :
  is_Some (to_bytes c) ->
  (forall packet, controller w packet = HCI_SUCCESS) ->
  (send_command c true ≫= k) w =
    k HCI_SUCCESS (with_sent (sent w ++ [(via_send_command, c)]) w).
Proof.
  intros Hc Hok. unfold mbind, M_bind. by rewrite send_command_success.
Qed.

Lemma fixed_field_length n data : length (fixed_field n data) = n.
Proof.
  unfold fixed_field. rewrite length_app, length_take, length_replicate. lia.
Qed.

Lemma address_command_has_packet c address :
  command_parameters c = address_bytes address ->
  0 <= op_code c < 65536 ->
  length (address_bytes address) = 6%nat ->
  is_Some (to_bytes c).
Proof.
  intros Hparams Hop Hlen. apply to_bytes_is_Some; [done|].
  rewrite Hparams, Hlen. lia.
Qed.

Lemma store_in_flash_has_packet user_id length_ data :
  is_Some (to_bytes (_Ericsson_Store_In_Flash_Command user_id length_ data)).
Proof.
  apply to_bytes_is_Some; [by vm_compute|].
  simpl. rewrite fixed_field_length. lia.
Qed.

Lemma reset_command_has_packet : is_Some (to_bytes HCI_Reset_Command).
Proof. by eexists. Qed.

Ltac enter_bdaddr Htype Hlv :=
  unfold bdaddr; rewrite Htype; simpl;
  unfold get_local_version; unfold mbind at 1, M_bind at 1; rewrite Hlv; simpl.

Ltac send_ok Hok Hlen :=
  rewrite bind_send_command_success;
  [ simpl
  | first [ apply store_in_flash_has_packet
          | apply reset_command_has_packet
          | eapply address_command_has_packet; [reflexivity|by vm_compute|exact Hlen] ]
  | simpl; exact Hok ].

(** For the identifiers 0, 2, 13, 18 and 305 a requested reset adds nothing:
    one write command is sent and [bdaddr] returns. *)
Lemma reset_is_silent address w cid :
  address_type address = PUBLIC_DEVICE_ADDRESS ->
  length (address_bytes address) = 6%nat ->
  local_version w = Some {| company_identifier := cid |} ->
  (forall packet, controller w packet = HCI_SUCCESS) ->
  cid ∈ [0; 2; 13; 18; 305] ->
  exists c,
    bdaddr address true w =
      (Return tt, with_sent (sent w ++ [(via_send_command, c)]) w) /\
    bdaddr address false w =
      (Return tt, with_sent (sent w ++ [(via_send_command, c)]) w).
Proof.
  intros Htype Hlen Hlv Hok Hin. rewrite !elem_of_cons, elem_of_nil in Hin.
  destruct Hin as [->|[->|[->|[->|[->|[]]]]]]; eexists; split;
    enter_bdaddr Htype Hlv;
    unfold _ericsson_bdaddr, _intel_bdaddr, _ti_bdaddr, _zeevo_bdaddr, _cys_bdaddr;
    rewrite ?bind_assoc_at; repeat send_ok Hok Hlen; reflexivity.
Qed.

(** For the identifiers 15, 48 and 57 a requested reset adds the standard
    reset command, once, after the write command. *)
Lemma reset_is_generic address w cid :
  address_type address = PUBLIC_DEVICE_ADDRESS ->
  length (address_bytes address) = 6%nat ->
  local_version w = Some {| company_identifier := cid |} ->
  (forall packet, controller w packet = HCI_SUCCESS) ->
  cid ∈ [15; 48; 57] ->
  exists c,
    bdaddr address true w =
      (Return tt,
       with_sent
         (sent w ++ [(via_send_command, c); (via_send_command, HCI_Reset_Command)]) w).
Proof.
  intros Htype Hlen Hlv Hok Hin. rewrite !elem_of_cons, elem_of_nil in Hin.
  destruct Hin as [->|[->|[->|[]]]]; eexists;
    enter_bdaddr Htype Hlv;
    unfold _ericsson_bdaddr, _bcm_bdaddr, _st_bdaddr;
    repeat first [rewrite bind_assoc_at | rewrite bind_mret_at | send_ok Hok Hlen];
    unfold mret, M_ret, with_sent; simpl; rewrite <- app_assoc; reflexivity.
Qed.

(** C8 — the run that fails the claim: company identifier 10, reset
    requested, any events from the controller (a success notification among
    them or not).  [bdaddr] sends the CSR write packet and then stays
    suspended in [_csr_get_response]; [_csr_reset] is never reached and the
    reset template is never sent. *)
Theorem csr_reset_never_sent events :
  let r := bdaddr sample_address true (quiet_world (Some 10) events) in
  r.1 = Suspended /\
  sent r.2 =
    [(via_send_hci_packet,
      _CSR_Write_BDAddr_Command (xc2 :: csr_write_body xaa xbb xcc xdd xee xff false))] /\
  (via_send_hci_packet, _CSR_Write_BDAddr_Command (xc2 :: csr_reset_template))
    ∉ sent r.2.
Proof.
  intros r. subst r.
  assert (bdaddr sample_address true (quiet_world (Some 10) events) =
          (_csr_bdaddr sample_address false;; _csr_reset false)
            (quiet_world (Some 10) events)) as -> by done.
  unfold mbind, M_bind.
  change sample_address
    with {| address_bytes := [xaa; xbb; xcc; xdd; xee; xff];
            address_type := PUBLIC_DEVICE_ADDRESS |}.
  rewrite csr_bdaddr_six.
  match goal with
  | |- context [_csr_get_response ?w0] =>
      destruct (csr_get_response_never_resolves 0 w0 eq_refl eq_refl)
        as (Hout & _ & _);
      pose proof (csr_get_response_sent w0) as Hsent;
      destruct (_csr_get_response w0) as [o w1]
  end.
  simpl in *. subst o. simpl. rewrite Hsent.
  split; [done|]. split; [done|].
  rewrite list_elem_of_singleton. intros Heq. by simplify_eq.
Qed.

(** * Further properties of the code *)

(** ** The CSR paths *)

Lemma csr_bdaddr_from_six a0 a1 a2 a3 a4 a5 rest t transient w :
  _csr_bdaddr
    {| address_bytes := a0 :: a1 :: a2 :: a3 :: a4 :: a5 :: rest; address_type := t |}
    transient w =
  _csr_get_response
    (with_sent
       (sent w ++
        [(via_send_hci_packet,
          _CSR_Write_BDAddr_Command (xc2 :: csr_write_body a0 a1 a2 a3 a4 a5 transient))])
       w).
Proof. by destruct transient. Qed.

Lemma csr_reset_unfold transient w :
  _csr_reset transient w =
  _csr_get_response
    (with_sent
       (sent w ++
        [(via_send_hci_packet,
          _CSR_Write_BDAddr_Command
            (xc2 :: (if transient then <[6%nat:=x02]> csr_reset_template
                     else csr_reset_template)))])
       w).
Proof. by destruct transient. Qed.

(** X1 - [_csr_reset] sends 0xC2 followed by an 18-byte body: the reset
    template, whose byte at offset 6 is 0x01, with 0x02 there instead when
    the reset is transient. *)
Theorem csr_reset_packet_layout transient w :
  exists body,
    sent (_csr_reset transient w).2 =
      sent w ++ [(via_send_hci_packet, _CSR_Write_BDAddr_Command (xc2 :: body))] /\
    length body = 18%nat /\
    body !! 6%nat = Some (if transient then x02 else x01) /\
    forall i : nat, i <> 6%nat -> body !! i = csr_reset_template !! i.
Proof.
  rewrite csr_reset_unfold, csr_get_response_sent. simpl.
  eexists. split; [reflexivity|].
  destruct transient; (split; [reflexivity|]); (split; [reflexivity|]);
    intros i Hi; [|done].
  do 18 (destruct i as [|i]; [done || lia|]). done.
Qed.

(** X2 - with fewer than six address bytes [_csr_bdaddr] raises
    [IndexError] while it fills the payload: nothing is sent, no future is
    created, the handler slot is not touched. *)
Theorem csr_bdaddr_short_address address transient w :
  (length (address_bytes address) < 6)%nat ->
  _csr_bdaddr address transient w = (Raise IndexError, w).
Proof.
  intros Hlen. destruct address as [bytes t]. simpl in Hlen.
  do 6 (destruct bytes as [|? bytes]; [by destruct transient|]).
  simpl in Hlen. lia.
Qed.

Lemma csr_bdaddr_short_address_witness :
  _csr_bdaddr {| address_bytes := [xaa; xbb; xcc; xdd; xee];
                 address_type := PUBLIC_DEVICE_ADDRESS |} false
    (quiet_world (Some 10) [csr_ok_event]) =
  (Raise IndexError, quiet_world (Some 10) [csr_ok_event]).
Proof.
  apply (csr_bdaddr_short_address
           {| address_bytes := [xaa; xbb; xcc; xdd; xee];
              address_type := PUBLIC_DEVICE_ADDRESS |}).
  simpl. lia.
Defined.

(** X3 - [_csr_bdaddr] reads the first six address bytes only: whatever
    follows them changes nothing. *)
Theorem csr_bdaddr_ignores_extra_bytes a0 a1 a2 a3 a4 a5 rest t transient w :
  _csr_bdaddr
    {| address_bytes := [a0; a1; a2; a3; a4; a5] ++ rest; address_type := t |}
    transient w =
  _csr_bdaddr
    {| address_bytes := [a0; a1; a2; a3; a4; a5]; address_type := t |}
    transient w.
Proof. simpl. by rewrite !csr_bdaddr_from_six. Qed.

(** X4 - called while a pre-existing handler is installed and nothing
    interrupts the [try] body, [_csr_get_response] never resumes: its
    future is created pending and stays pending, every event the
    controller emits goes to the pre-existing handler, in order, and the
    coroutine is still suspended when the events run out. *)
Theorem csr_get_response_waits_forever ident w :
  host_on_hci_event w = host_handler ident ->
  interrupt w = None ->
  let r := _csr_get_response w in
  r.1 = Suspended /\
  futures r.2 = futures w ++ [PENDING] /\
  handled r.2 = handled w ++ ((fun e => (ident, e)) <$> inbox w) /\
  inbox r.2 = [] /\
  host_on_hci_event r.2 = host_handler ident.
Proof.
  intros Hslot Hint r. subst r.
  rewrite csr_get_response_normal by done.
  rewrite (await_loop_host_handler _ ident); simpl;
    [done|by rewrite Hslot|apply lookup_snoc_length].
Qed.

Lemma csr_get_response_waits_forever_witness :
  (_csr_get_response (quiet_world (Some 10) [csr_ok_event; csr_ok_event])).1 = Suspended.
Proof.
  by destruct (csr_get_response_waits_forever 0
                 (quiet_world (Some 10) [csr_ok_event; csr_ok_event]) eq_refl eq_refl)
    as (Hout & _).
Defined.

(** X5 - both CSR paths send their one packet and then never complete:
    with a pre-existing handler installed and no interrupt, the write (six
    address bytes or more) and the reset each put exactly one raw packet on
    the transport and stay suspended. *)
Theorem csr_paths_send_then_hang ident w a0 a1 a2 a3 a4 a5 rest t transient :
  host_on_hci_event w = host_handler ident ->
  interrupt w = None ->
  let address :=
    {| address_bytes := a0 :: a1 :: a2 :: a3 :: a4 :: a5 :: rest; address_type := t |} in
  ((_csr_bdaddr address transient w).1 = Suspended /\
   exists packet,
     sent (_csr_bdaddr address transient w).2 = sent w ++ [(via_send_hci_packet, packet)]) /\
  ((_csr_reset transient w).1 = Suspended /\
   exists packet,
     sent (_csr_reset transient w).2 = sent w ++ [(via_send_hci_packet, packet)]).
Proof.
  intros Hslot Hint address. subst address.
  rewrite csr_bdaddr_from_six, csr_reset_unfold, !csr_get_response_sent. simpl.
  split; (split; [|by eexists]).
  - by apply (csr_get_response_never_resolves ident).
  - by apply (csr_get_response_never_resolves ident).
Qed.

Lemma csr_paths_send_then_hang_witness :
  (_csr_bdaddr sample_address true (quiet_world (Some 10) [csr_ok_event])).1 = Suspended /\
  (_csr_reset true (quiet_world (Some 10) [csr_ok_event])).1 = Suspended.
Proof.
  destruct (csr_paths_send_then_hang 0 (quiet_world (Some 10) [csr_ok_event])
              xaa xbb xcc xdd xee xff [] PUBLIC_DEVICE_ADDRESS true eq_refl eq_refl)
    as ((Hwrite & _) & (Hreset & _)).
  by split.
Defined.

(** X6 - when the [try] body of [_csr_get_response] is interrupted, the
    bare [except] swallows the exception, whatever it was: the coroutine
    raises "Some error occurred" at once, its future is failed with that
    error, the handler slot holds the saved handler, and no event is taken
    from the controller, none handled, nothing sent. *)
Theorem csr_get_response_setup_failure w e :
  interrupt w = Some e ->
  let r := _csr_get_response w in
  r.1 = Raise (BDAddrException "Some error occurred") /\
  futures r.2 =
    futures w ++ [FINISHED_exception (BDAddrException "Some error occurred")] /\
  host_on_hci_event r.2 = host_on_hci_event w /\
  inbox r.2 = inbox w /\
  handled r.2 = handled w /\
  sent r.2 = sent w /\
  interrupt r.2 = None.
Proof.
  intros Hint r. subst r. by rewrite (csr_get_response_interrupted w e).
Qed.

Lemma csr_get_response_setup_failure_witness :
  (_csr_get_response
     (with_interrupt (Some KeyboardInterrupt) (quiet_world (Some 10) [csr_ok_event]))).1 =
  Raise (BDAddrException "Some error occurred").
Proof.
  by destruct (csr_get_response_setup_failure
                 (with_interrupt (Some KeyboardInterrupt)
                    (quiet_world (Some 10) [csr_ok_event]))
                 KeyboardInterrupt eq_refl) as (Hout & _).
Defined.

(** ** The closure [on_hci_event], at its edges *)

(** X7 - a 0xFF event whose payload is too short for the bytes the check
    reads (empty, or starting with 0xC2 and shorter than 11 bytes) makes
    the closure raise [IndexError]; the future and everything else are left
    as they were. *)
Theorem on_hci_event_unreadable future origin event w :
  event_code event = 0xFF ->
  ~ csr_readable (parameters event) ->
  call (on_hci_event future origin) event w = (Raise IndexError, w).
Proof.
  intros Hcode Hunreadable. simpl. rewrite Hcode. simpl. run_M.
  destruct (parameters event !! 0%nat) as [res0|] eqn:H0; [|done]. simpl.
  destruct (int_of_byte res0 =? 194) eqn:Hmark.
  - assert (length (parameters event) < 11)%nat as Hshort.
    { destruct (decide (length (parameters event) < 11)%nat); [done|].
      exfalso. apply Hunreadable. exists res0. split; [done|]. lia. }
    destruct (parameters event !! 9%nat) as [res9|]; [|done]. simpl.
    rewrite (lookup_ge_None_2 (parameters event) 10) by lia. done.
  - exfalso. apply Hunreadable. exists res0. split; [done|].
    intros Heq. apply Z.eqb_neq in Hmark. done.
Qed.

Lemma on_hci_event_unreadable_witness :
  call (on_hci_event 0 (host_handler 0)) {| event_code := 0xFF; parameters := [] |}
    (with_futures [PENDING] (quiet_world (Some 10) [])) =
  (Raise IndexError, with_futures [PENDING] (quiet_world (Some 10) [])).
Proof.
  apply (on_hci_event_unreadable 0 (host_handler 0)
           {| event_code := 0xFF; parameters := [] |}); [reflexivity|].
  intros (res0 & H0 & _). discriminate H0.
Defined.

(** X8 - once its future is resolved the closure cannot resolve it again: a
    further readable 0xFF event makes it raise [InvalidStateError], the
    future keeps its first result, and the event is not passed on to the
    handler the closure replaced. *)
Theorem on_hci_event_after_resolution future origin event w state :
  event_code event = 0xFF ->
  csr_readable (parameters event) ->
  futures w !! future = Some state ->
  state <> PENDING ->
  call (on_hci_event future origin) event w = (Raise InvalidStateError, w).
Proof.
  intros Hcode (res0 & H0 & Hlen) Hstate Hdone. simpl. rewrite Hcode. simpl.
  run_M. rewrite H0. simpl.
  destruct (int_of_byte res0 =? 194) eqn:Hmark.
  - apply Z.eqb_eq in Hmark. specialize (Hlen Hmark).
    destruct (lookup_lt_is_Some_2 (parameters event) 9) as [res9 H9]; [lia|].
    destruct (lookup_lt_is_Some_2 (parameters event) 10) as [res10 H10]; [lia|].
    rewrite H9, H10. simpl.
    destruct (_ =? 0); rewrite Hstate; by destruct state.
  - rewrite Hstate. by destruct state.
Qed.

Lemma on_hci_event_after_resolution_witness :
  call (on_hci_event 0 (host_handler 0)) csr_ok_event
    (with_futures [FINISHED_result] (quiet_world (Some 10) [])) =
  (Raise InvalidStateError, with_futures [FINISHED_result] (quiet_world (Some 10) [])).
Proof.
  apply (on_hci_event_after_resolution 0 (host_handler 0) csr_ok_event
           (with_futures [FINISHED_result] (quiet_world (Some 10) []))
           FINISHED_result); [reflexivity| |reflexivity|discriminate].
  exists xc2. split; [reflexivity|]. intros _. simpl. lia.
Defined.

(** X9 - an event of any class other than 0xFF goes through the closure,
    and through any closures below it, to the pre-existing handler at the
    bottom, unchanged; no future is touched and nothing else changes. *)
Theorem on_hci_event_forwards h event w :
  event_code event <> 0xFF ->
  call h event w =
    (Return tt, with_handled (handled w ++ [(innermost h, event)]) w).
Proof.
  intros Hcode. induction h as [ident|future origin IH]; simpl; [done|].
  by destruct (Z.eqb_spec (event_code event) 255).
Qed.

Lemma on_hci_event_forwards_witness :
  call (on_hci_event 1 (on_hci_event 0 (host_handler 7))) other_event_1
    (with_futures [PENDING; PENDING] (quiet_world (Some 10) [])) =
  (Return tt,
   with_handled [(7%nat, other_event_1)]
     (with_futures [PENDING; PENDING] (quiet_world (Some 10) []))).
Proof.
  apply (on_hci_event_forwards (on_hci_event 1 (on_hci_event 0 (host_handler 7)))
           other_event_1).
  simpl. discriminate.
Defined.

(** ** The dispatcher, beyond the table *)

Lemma bind_send_command {B} c (k : Z -> M B) w packet :
  to_bytes c = Some packet ->
  (send_command c true ≫= k) w =
    if controller w packet =? HCI_SUCCESS
    then k (controller w packet) (with_sent (sent w ++ [(via_send_command, c)]) w)
    else (Raise (HCI_StatusError (controller w packet)),
          with_sent (sent w ++ [(via_send_command, c)]) w).
Proof.
  intros Hp. unfold mbind, M_bind, send_command. rewrite Hp. simpl.
  by destruct (controller w packet =? HCI_SUCCESS).
Qed.

Lemma to_bytes_length c packet :
  to_bytes c = Some packet -> length packet = (4 + length (command_parameters c))%nat.
Proof.
  unfold to_bytes. intros Hp. repeat case_match; by simplify_eq.
Qed.

Ltac send_with Hlen :=
  match goal with
  | |- context [send_command ?c true ≫= ?k] =>
      let packet := fresh "packet" in
      let Hp := fresh "Hp" in
      destruct (to_bytes c) as [packet|] eqn:Hp;
      [ rewrite (bind_send_command c k _ packet Hp)
      | exfalso;
        assert (is_Some (to_bytes c)) as [? ?]
          by first [ apply store_in_flash_has_packet
                   | apply reset_command_has_packet
                   | eapply address_command_has_packet;
                     [reflexivity|by vm_compute|exact Hlen] ];
        congruence ]
  end.

(** X10 - the run without trouble, for every supported identifier but
    CSR's: with a public six-byte address and a controller that answers
    success, [bdaddr] returns after sending the write command of the
    identifier's vendor (the one command [standard_command] names for that
    vendor), followed by the standard reset command exactly when a reset
    was asked and the identifier is 15, 48 or 57. *)
Theorem bdaddr_happy_path address reset w cid v c :
  address_type address = PUBLIC_DEVICE_ADDRESS ->
  length (address_bytes address) = 6%nat ->
  local_version w = Some {| company_identifier := cid |} ->
  (forall packet, controller w packet = HCI_SUCCESS) ->
  (cid, v) ∈ VendorProfile ->
  standard_command v address = Some c ->
  bdaddr address reset w =
    (Return tt,
     with_sent
       (sent w ++
        (via_send_command, c) ::
        (if reset && ((cid =? 15) || (cid =? 48) || (cid =? 57))
         then [(via_send_command, HCI_Reset_Command)] else []))
       w).
Proof.
  intros Htype Hlen Hlv Hok Hrow Hcmd. apply vendor_profile_cases in Hrow.
  destruct Hrow as [H|[H|[H|[H|[H|[H|[H|[H|H]]]]]]]]; simplify_eq;
    simpl in Hcmd; simplify_eq; destruct reset;
    enter_bdaddr Htype Hlv;
    unfold _ericsson_bdaddr, _intel_bdaddr, _ti_bdaddr, _bcm_bdaddr,
      _zeevo_bdaddr, _st_bdaddr, _cys_bdaddr;
    repeat first [rewrite bind_assoc_at | rewrite bind_mret_at | send_ok Hok Hlen];
    unfold mret, M_ret, with_sent; simpl; rewrite <- ?app_assoc; reflexivity.
Qed.

Lemma bdaddr_happy_path_witness :
  bdaddr sample_address true (world_answering HCI_SUCCESS 48) =
    (Return tt,
     with_sent
       [(via_send_command,
         _Ericsson_Store_In_Flash_Command xfe x06 (address_bytes sample_address));
        (via_send_command, HCI_Reset_Command)]
       (world_answering HCI_SUCCESS 48)).
Proof.
  apply (bdaddr_happy_path sample_address true (world_answering HCI_SUCCESS 48) 48 ST
           (_Ericsson_Store_In_Flash_Command xfe x06 (address_bytes sample_address))
           eq_refl eq_refl eq_refl (fun _ => eq_refl)); [|reflexivity].
  unfold VendorProfile. rewrite !elem_of_cons. tauto.
Defined.



(** X12 - a refused reset comes too late for the address: for the
    identifiers 15, 48 and 57, when the controller accepts the write and
    answers the reset (the one four-byte packet) with another status,
    [bdaddr] raises that status after the write command of the identifier's
    vendor and then the standard reset command have been sent. *)
Theorem bdaddr_reset_refused address w cid v c status :
  address_type address = PUBLIC_DEVICE_ADDRESS ->
  length (address_bytes address) = 6%nat ->
  local_version w = Some {| company_identifier := cid |} ->
  (forall packet, length packet <> 4%nat -> controller w packet = HCI_SUCCESS) ->
  (forall packet, length packet = 4%nat -> controller w packet = status) ->
  status <> HCI_SUCCESS ->
  cid ∈ [15; 48; 57] ->
  (cid, v) ∈ VendorProfile ->
  standard_command v address = Some c ->
  bdaddr address true w =
    (Raise (HCI_StatusError status),
     with_sent
       (sent w ++ [(via_send_command, c); (via_send_command, HCI_Reset_Command)]) w).
Proof.
  intros Htype Hlen Hlv Hwrite Hreset Hstatus Hin Hrow Hcmd.
  apply Z.eqb_neq in Hstatus. apply vendor_profile_cases in Hrow.
  rewrite !elem_of_cons, elem_of_nil in Hin.
  destruct Hin as [->|[->|[->|[]]]];
    destruct Hrow as [H|[H|[H|[H|[H|[H|[H|[H|H]]]]]]]]; simplify_eq;
    simpl in Hcmd; simplify_eq;
    enter_bdaddr Htype Hlv;
    unfold _ericsson_bdaddr, _bcm_bdaddr, _st_bdaddr;
    rewrite ?bind_assoc_at; send_with Hlen;
    (rewrite Hwrite;
     [|apply to_bytes_length in Hp; rewrite Hp; simpl;
       rewrite ?fixed_field_length; unfold address_field; rewrite ?Hlen; lia]);
    simpl; rewrite ?bind_mret_at; send_with Hlen; simpl;
    (rewrite Hreset; [|apply to_bytes_length in Hp0; by rewrite Hp0]);
    rewrite Hstatus; unfold with_sent; simpl; rewrite <- app_assoc; reflexivity.
Qed.

Lemma bdaddr_reset_refused_witness :
  bdaddr sample_address true (world_refusing_reset 0x0C 57) =
    (Raise (HCI_StatusError 0x0C),
     with_sent
       [(via_send_command, _Ericsson_Write_BDAddr_Command sample_address);
        (via_send_command, HCI_Reset_Command)]
       (world_refusing_reset 0x0C 57)).
Proof.
  apply (bdaddr_reset_refused sample_address (world_refusing_reset 0x0C 57) 57 Ericsson
           (_Ericsson_Write_BDAddr_Command sample_address) 0x0C
           eq_refl eq_refl eq_refl).
  - intros packet Hlen. simpl. by destruct (Nat.eqb_spec (length packet) 4).
  - intros packet Hlen. simpl. by rewrite Hlen.
  - discriminate.
  - rewrite !elem_of_cons. tauto.
  - unfold VendorProfile. rewrite !elem_of_cons. tauto.
  - reflexivity.
Defined.

(** ** What [bdaddr] leaves alone *)

Lemma sends_at_most_refl n w : sends_at_most n w w.
Proof. repeat split. exists []. rewrite app_nil_r. split; [done|simpl; lia]. Qed.

Lemma sends_at_most_trans n m w1 w2 w3 :
  sends_at_most n w1 w2 -> sends_at_most m w2 w3 -> sends_at_most (n + m) w1 w3.
Proof.
  intros (Hlv1 & Hh1 & Hc1 & news1 & Hs1 & Hn1) (Hlv2 & Hh2 & Hc2 & news2 & Hs2 & Hn2).
  repeat split; try congruence.
  exists (news1 ++ news2). rewrite Hs2, Hs1, <- app_assoc, length_app.
  split; [done|lia].
Qed.

Lemma sends_at_most_weaken n m w w' :
  (n <= m)%nat -> sends_at_most n w w' -> sends_at_most m w w'.
Proof.
  intros Hnm (Hlv & Hh & Hc & news & Hs & Hn). repeat split; try done.
  exists news. split; [done|lia].
Qed.

Lemma sends_at_most_bind {A B} n k (m : M A) (f : A -> M B) w :
  (forall w0, sends_at_most n w0 (m w0).2) ->
  (forall a w0, sends_at_most k w0 (f a w0).2) ->
  sends_at_most (n + k) w ((m ≫= f) w).2.
Proof.
  intros Hm Hf. unfold mbind, M_bind. specialize (Hm w).
  destruct (m w) as [[a| |] w']; simpl in *.
  - eapply sends_at_most_trans; [exact Hm|apply Hf].
  - eapply sends_at_most_weaken; [|exact Hm]. lia.
  - eapply sends_at_most_weaken; [|exact Hm]. lia.
Qed.

Lemma send_command_sends_one c check w : sends_at_most 1 w (send_command c check w).2.
Proof.
  unfold send_command. destruct (to_bytes c); [|apply sends_at_most_refl].
  case_match; simpl; repeat split; by exists [(via_send_command, c)].
Qed.

Lemma standard_path_sends_one c w :
  sends_at_most 1 w ((send_command c true;; mret tt) w).2.
Proof.
  apply (sends_at_most_bind 1 0); [apply send_command_sends_one|].
  intros. apply sends_at_most_refl.
Qed.

Lemma csr_get_response_sends_none w : sends_at_most 0 w (_csr_get_response w).2.
Proof.
  destruct (interrupt w) as [e|] eqn:Hint.
  - rewrite (csr_get_response_interrupted w e) by done. simpl.
    repeat split. exists []. by rewrite app_nil_r.
  - rewrite csr_get_response_normal by done.
    match goal with
    | |- context [await_loop ?n ?evs ?w0] =>
        destruct (await_loop_same_host n evs w0) as (Hlv & Hslot & _ & Hsent & Hctl)
    end.
    repeat split; try done. exists []. by rewrite app_nil_r.
Qed.

Lemma csr_packet_then_response_sends_one packet w :
  sends_at_most 1 w
    (_csr_get_response (with_sent (sent w ++ [(via_send_hci_packet, packet)]) w)).2.
Proof.
  apply (sends_at_most_trans 1 0 w
           (with_sent (sent w ++ [(via_send_hci_packet, packet)]) w));
    [|apply csr_get_response_sends_none].
  repeat split. by exists [(via_send_hci_packet, packet)].
Qed.

Lemma csr_bdaddr_sends_one address transient w :
  sends_at_most 1 w (_csr_bdaddr address transient w).2.
Proof.
  destruct address as [bytes t].
  do 6 (destruct bytes as [|? bytes];
        [destruct transient; apply sends_at_most_refl|]).
  rewrite csr_bdaddr_from_six. apply csr_packet_then_response_sends_one.
Qed.

Lemma csr_reset_sends_one transient w :
  sends_at_most 1 w (_csr_reset transient w).2.
Proof. rewrite csr_reset_unfold. apply csr_packet_then_response_sends_one. Qed.

(** X13 - whatever the address, the reset flag and the world, and however
    it ends, [bdaddr] leaves the cached identification, the handler slot
    and the controller as they were, and sends at most two commands: those
    already sent stay, in order, and at most two follow. *)
Theorem bdaddr_sends_at_most_two address reset w :
  sends_at_most 2 w (bdaddr address reset w).2.
Proof.
  unfold bdaddr.
  destruct (negb (address_type address =? PUBLIC_DEVICE_ADDRESS));
    [apply sends_at_most_refl|].
  unfold get_local_version. unfold mbind at 1, M_bind at 1.
  destruct (local_version w) as [[cid]|]; [|apply sends_at_most_refl]. simpl.
  apply (sends_at_most_bind 1 1).
  - intros w0.
    repeat (case_match;
            [first [apply standard_path_sends_one | apply csr_bdaddr_sends_one]|]).
    apply sends_at_most_refl.
  - intros _ w0. destruct reset; [|apply sends_at_most_refl].
    repeat (case_match;
            [first [apply standard_path_sends_one | apply csr_reset_sends_one
                   | apply sends_at_most_refl]|]).
    apply sends_at_most_refl.
Qed.

(** X14 - the ST path sends one command of the vendor namespace 0x3F,
    command number 0x0022, whose parameters start with the user id 0xFE,
    the length 6 and then the six address bytes. *)
Theorem st_bdaddr_command address w :
  length (address_bytes address) = 6%nat ->
  exists c,
    sent (_st_bdaddr address w).2 = sent w ++ [(via_send_command, c)] /\
    op_code_group (op_code c) = 0x3F /\
    op_code_command (op_code c) = 0x0022 /\
    take 8 (command_parameters c) = [xfe; x06] ++ address_bytes address.
Proof.
  intros Hlen.
  exists (_Ericsson_Store_In_Flash_Command xfe x06 (address_bytes address)).
  split; [|split; [done|split; [done|]]].
  - unfold _st_bdaddr. rewrite bind_ret_snd.
    apply send_command_sent, store_in_flash_has_packet.
  - simpl. unfold fixed_field. destruct (address_bytes address) as [|a0 bytes]; [done|].
    do 5 (destruct bytes as [|? bytes]; [done|]). by destruct bytes.
Qed.

Lemma st_bdaddr_command_witness :
  exists c,
    sent (_st_bdaddr sample_address (quiet_world (Some 48) [])).2 = [(via_send_command, c)] /\
    take 8 (command_parameters c) = [xfe; x06; xaa; xbb; xcc; xdd; xee; xff].
Proof.
  destruct (st_bdaddr_command sample_address (quiet_world (Some 48) []) eq_refl)
    as (c & Hsent & _ & _ & Hparams).
  by exists c.
Defined.

(** ** The decorator and the registry of command classes *)

Lemma import_module_unfold R0 :
  import_module R0 =
  <[64513:=decorated (hci_command_op_code 0x3F 0x0001, [("address", parse_address)],
                      "_Zeevo_Write_BDAddr_Command")]>
  (<[64513:=decorated (hci_command_op_code 0x3F 0x0001, [("address", parse_address)],
                       "_CYS_Write_BDAddr_Command")]>
  (<[64561:=decorated (hci_command_op_code 0x3F 0x0031, [("address", parse_address)],
                       "_Intel_Write_BDAddr_Command")]>
  (<[64513:=decorated (hci_command_op_code 0x3F 0x0001, [("address", parse_address)],
                       "_BCM_Write_BDAddr_Command")]>
  (<[64518:=decorated (hci_command_op_code 0x3F 0x0006, [("address", parse_address)],
                       "_TI_Write_BDAddr_Command")]>
  (<[64512:=decorated (hci_command_op_code 0x3F 0x0000, [("payload", star)],
                       "_CSR_Write_BDAddr_Command")]>
  (<[64546:=decorated (hci_command_op_code 0x3F 0x0022,
                       [("user_id", size 1); ("length", size 1); ("data", size 253)],
                       "_Ericsson_Store_In_Flash_Command")]>
  (<[64525:=decorated (hci_command_op_code 0x3F 0x000D, [("address", parse_address)],
                       "_Ericsson_Write_BDAddr_Command")]> R0))))))).
Proof. reflexivity. Qed.

(** X15 - after the module is imported, whatever the registry held before:
    each of the six op-codes of the module is bound to a class of the
    module, with the name the decorator derived from the class name; under
    0x3F/0x0001, where three classes were registered, the last one, Zeevo's,
    is found; every other op-code is bound as before. *)
Theorem import_module_registry (R0 : gmap Z CommandClass) :
  let R := import_module R0 in
  names_of <$> R !! hci_command_op_code 0x3F 0x000D =
    Some ("_Ericsson_Write_BDAddr_Command", "ERICSSON_WRITE_BDADDR_COMMAND") /\
  names_of <$> R !! hci_command_op_code 0x3F 0x0022 =
    Some ("_Ericsson_Store_In_Flash_Command", "ERICSSON_STORE_IN_FLASH_COMMAND") /\
  names_of <$> R !! hci_command_op_code 0x3F 0x0000 =
    Some ("_CSR_Write_BDAddr_Command", "CSR_WRITE_BDADDR_COMMAND") /\
  names_of <$> R !! hci_command_op_code 0x3F 0x0006 =
    Some ("_TI_Write_BDAddr_Command", "TI_WRITE_BDADDR_COMMAND") /\
  names_of <$> R !! hci_command_op_code 0x3F 0x0031 =
    Some ("_Intel_Write_BDAddr_Command", "INTEL_WRITE_BDADDR_COMMAND") /\
  names_of <$> R !! hci_command_op_code 0x3F 0x0001 =
    Some ("_Zeevo_Write_BDAddr_Command", "ZEEVO_WRITE_BDADDR_COMMAND") /\
  (forall op, op ∉ module_op_codes -> R !! op = R0 !! op).
Proof.
  intros R. subst R. rewrite import_module_unfold.
  change (hci_command_op_code 63 13) with 64525.
  change (hci_command_op_code 63 34) with 64546.
  change (hci_command_op_code 63 0) with 64512.
  change (hci_command_op_code 63 6) with 64518.
  change (hci_command_op_code 63 49) with 64561.
  change (hci_command_op_code 63 1) with 64513.
  repeat split.
  all: try (rewrite ?lookup_insert_eq, ?(lookup_insert_ne _ _ _ _) by done;
            rewrite ?lookup_insert_eq; reflexivity).
  intros op Hop. unfold module_op_codes in Hop.
  rewrite !not_elem_of_cons in Hop.
  destruct Hop as (H1 & H2 & H3 & H4 & H5 & H6 & _).
  by rewrite !lookup_insert_ne.
Qed.

(** X16 - a class found in the registry after the import was either there
    before under the same op-code or is one of six classes of the module;
    the BCM and CYS classes, registered under an op-code that Zeevo's class
    takes over, can no longer be found by op-code. *)
Theorem import_module_shadows (R0 : gmap Z CommandClass) op c :
  import_module R0 !! op = Some c ->
  R0 !! op = Some c \/
  class___name__ c ∈
    ["_Ericsson_Write_BDAddr_Command"; "_Ericsson_Store_In_Flash_Command";
     "_CSR_Write_BDAddr_Command"; "_TI_Write_BDAddr_Command";
     "_Intel_Write_BDAddr_Command"; "_Zeevo_Write_BDAddr_Command"].
Proof.
  rewrite import_module_unfold. intros Hc.
  repeat (rewrite lookup_insert in Hc; case_decide;
          [right; simplify_eq; simpl; rewrite !elem_of_cons; tauto|]).
  by left.
Qed.

Lemma import_module_shadows_witness :
  class___name__
    (decorated (hci_command_op_code 0x3F 0x0001, [("address", parse_address)],
                "_Zeevo_Write_BDAddr_Command")) ∈
    ["_Ericsson_Write_BDAddr_Command"; "_Ericsson_Store_In_Flash_Command";
     "_CSR_Write_BDAddr_Command"; "_TI_Write_BDAddr_Command";
     "_Intel_Write_BDAddr_Command"; "_Zeevo_Write_BDAddr_Command"].
Proof.
  destruct (import_module_shadows ∅ 64513
              (decorated (hci_command_op_code 0x3F 0x0001, [("address", parse_address)],
                          "_Zeevo_Write_BDAddr_Command")))
    as [Hempty|Hin].
  - rewrite import_module_unfold. by rewrite lookup_insert_eq.
  - by rewrite lookup_empty in Hempty.
  - exact Hin.
Defined.

(** *** The name the decorator derives *)

Lemma upper_char_not_lower c : is_lower (upper_char c) = false.
Proof. by destruct c as [[] [] [] [] [] [] [] []]. Qed.

Lemma upper_no_lower s :
  Forall (fun c => is_lower c = false) (String.list_ascii_of_string (upper s)).
Proof.
  induction s as [|c s IH]; simpl; [done|].
  constructor; [apply upper_char_not_lower|done].
Qed.

Lemma lstrip_keeps (P : ascii -> Prop) s :
  Forall P (String.list_ascii_of_string s) ->
  Forall P (String.list_ascii_of_string (lstrip_underscores s)).
Proof.
  induction s as [|c s IH]; simpl; [done|].
  intros Hall. destruct (Ascii.eqb c "_"); [|done].
  apply IH. by inversion Hall.
Qed.

Lemma rstrip_keeps (P : ascii -> Prop) s :
  Forall P (String.list_ascii_of_string s) ->
  Forall P (String.list_ascii_of_string (rstrip_underscores s)).
Proof.
  induction s as [|c s IH]; simpl; [done|].
  intros Hall. inversion Hall as [|? ? Hc Hs]; subst. specialize (IH Hs).
  destruct (rstrip_underscores s) as [|c' kept]; simpl in *.
  - destruct (Ascii.eqb c "_"); simpl; [done|by constructor].
  - by constructor.
Qed.

Lemma lstrip_head s :
  head (String.list_ascii_of_string (lstrip_underscores s)) <> Some "_"%char.
Proof.
  induction s as [|c s IH]; simpl; [done|].
  destruct (Ascii.eqb_spec c "_"); [done|]. simpl. congruence.
Qed.

Lemma rstrip_last s :
  last (String.list_ascii_of_string (rstrip_underscores s)) <> Some "_"%char.
Proof.
  induction s as [|c s IH]; simpl; [done|].
  destruct (rstrip_underscores s) as [|c' kept]; simpl in *.
  - destruct (Ascii.eqb_spec c "_"); simpl; [done|congruence].
  - done.
Qed.

Lemma lstrip_last s :
  last (String.list_ascii_of_string s) <> Some "_"%char ->
  last (String.list_ascii_of_string (lstrip_underscores s)) <> Some "_"%char.
Proof.
  induction s as [|c s IH]; simpl; [done|].
  intros Hlast. destruct (Ascii.eqb_spec c "_"); [|done].
  apply IH. destruct s; [done|]. exact Hlast.
Qed.

(** X17 - when no name is given, the name the decorator stores has no
    lower-case ASCII letter and neither starts nor ends with an underscore,
    whatever the class is called. *)
Theorem hci_command_default_name op fields return_parameters_fields cls
    (R : gmap Z CommandClass) :
  let n := class_name (_hci_command op None fields return_parameters_fields cls R).1 in
  head (String.list_ascii_of_string n) <> Some "_"%char /\
  last (String.list_ascii_of_string n) <> Some "_"%char /\
  Forall (fun c => is_lower c = false) (String.list_ascii_of_string n).
Proof.
  simpl. unfold strip_underscores. split; [apply lstrip_head|]. split.
  - apply lstrip_last, rstrip_last.
  - apply lstrip_keeps, rstrip_keeps, upper_no_lower.
Qed.

Lemma import_module_registry_witness :
  import_module ∅ !! 3075 = None /\
  names_of <$> import_module ∅ !! hci_command_op_code 0x3F 0x0001 =
    Some ("_Zeevo_Write_BDAddr_Command", "ZEEVO_WRITE_BDADDR_COMMAND").
Proof.
  destruct (import_module_registry ∅) as (_ & _ & _ & _ & _ & Hzeevo & Hother).
  split; [|exact Hzeevo].
  rewrite Hother; [apply lookup_empty|].
  unfold module_op_codes. rewrite !not_elem_of_cons.
  repeat split; try discriminate. apply not_elem_of_nil.
Defined.
